(** * svelte-kit-cookie-session: the session codec, rotation, expiry and
      rolling refresh of [src/lib/core.ts]

    A shallow embedding of [initializeSession] and of the handle it returns.
    The closure variables of [initializeSession] ([sessionCookie],
    [sessionData], [sessionState], [setCookie]) form the state of a small
    state-and-exception monad; every [new Date()] / [Date.now()] is a read of
    an explicit clock.  The collaborators the file imports ([encrypt],
    [decrypt], [serialize], the string-to-number conversion, date parsing and
    calendar arithmetic) are the fields of a [World].

    JavaScript numbers are IEEE 754 binary64 values, computed with the
    Standard Library's executable specification of floating-point
    arithmetic ([SpecFloat], precision 53, rounding to nearest, ties to
    even): [+], [-], [*], [/] and [<] round and compare as the engine does.

    Idealisations, all stated here once:
    - clock readings and the time values found in a payload are integers of
      milliseconds; they become doubles where the code computes with them
      (exactly, below 2^53);
    - secret ids are integers; a numeric string whose value is not an integer
      behaves like NaN, since it equals no id;
    - session payloads are flat objects whose fields hold scalars or Dates;
      [null] and [undefined] session data are identified (the code only ever
      tests them for truthiness);
    - awaiting a promise is sequencing; a rejected promise is a throw. *)

From Stdlib Require Import ZArith String Ascii DecimalString Lia.
From Stdlib Require SpecFloat.
From stdpp Require Import base option strings gmap.

Local Open Scope Z_scope.

(** ** JavaScript numbers, dates and values *)

Module Num.

(** A JavaScript number: a binary64 value; [S754_nan] is NaN. *)
Definition num : Type := SpecFloat.spec_float.

Definition prec : Z := 53.
Definition emax : Z := 1024.

Definition NaN : num := SpecFloat.S754_nan.

(** The number an integer literal or an integer time value denotes: the
    nearest double, the integer itself below 2^53. *)
Definition of_Z (z : Z) : num := SpecFloat.binary_normalize prec emax z 0 false.

(** [a + b], [a - b], [a * b] and [a / b]. *)
Definition add : num → num → num := SpecFloat.SFadd prec emax.
Definition sub : num → num → num := SpecFloat.SFsub prec emax.
Definition mul : num → num → num := SpecFloat.SFmul prec emax.
Definition div : num → num → num := SpecFloat.SFdiv prec emax.

(** [a < b]: false as soon as one side is NaN. *)
Definition lt (a b : num) : bool := SpecFloat.SFltb a b.

(** The integer [s * m] of a finite number [s * m * 2^e]. *)
Definition signed (s : bool) (m : positive) : Z := SpecFloat.cond_Zopp s (Zpos m).

(** [Math.round]: the integer nearest to the exact value, halves towards
    +infinity; a result of zero keeps the sign of the argument.  A number
    with a non-negative exponent is an integer already. *)
Definition round (a : num) : num :=
  match a with
  | SpecFloat.S754_finite s m (Zneg k) =>
      let r := (2 * signed s m + 2 ^ Zpos k) / 2 ^ (Zpos k + 1) in
      if r =? 0 then SpecFloat.S754_zero s else of_Z r
  | _ => a
  end.

(** ToBoolean on a number: +0, -0 and NaN are falsy. *)
Definition truthy (a : num) : bool :=
  match a with
  | SpecFloat.S754_zero _ | SpecFloat.S754_nan => false
  | _ => true
  end.

(** Truncation towards zero (ToIntegerOrInfinity) of a finite number;
    [None] for NaN and the infinities. *)
Definition trunc (a : num) : option Z :=
  match a with
  | SpecFloat.S754_zero _ => Some 0
  | SpecFloat.S754_finite s m (Zneg k) =>
      Some (SpecFloat.cond_Zopp s (Zpos m / 2 ^ Zpos k))
  | SpecFloat.S754_finite s m e => Some (signed s m * 2 ^ e)
  | _ => None
  end.

(** [Math.floor] of a finite number. *)
Definition floor (a : num) : option Z :=
  match a with
  | SpecFloat.S754_zero _ => Some 0
  | SpecFloat.S754_finite s m (Zneg k) => Some (signed s m / 2 ^ Zpos k)
  | SpecFloat.S754_finite s m e => Some (signed s m * 2 ^ e)
  | _ => None
  end.

End Num.

Abbreviation num := Num.num.

#[global] Arguments Num.of_Z : simpl never.
#[global] Arguments Num.add : simpl never.
#[global] Arguments Num.sub : simpl never.
#[global] Arguments Num.mul : simpl never.
#[global] Arguments Num.div : simpl never.
#[global] Arguments Num.lt : simpl never.
#[global] Arguments Num.round : simpl never.

(** A [Date] object: its time value in milliseconds, [None] for an
    Invalid Date. *)
Definition date : Type := option Z.

(** [new Date(n)] for a number [n] (TimeClip): an Invalid Date for NaN, an
    infinity or a value beyond 8.64e15 milliseconds either way, the integer
    part of [n] otherwise. *)
Definition Date_of_num (n : num) : date :=
  match Num.trunc n with
  | Some t => if Z.abs t <=? 8640000000000000 then Some t else None
  | None => None
  end.

(** [d.getTime()]. *)
Definition getTime (d : date) : num :=
  match d with
  | Some t => Num.of_Z t
  | None => Num.NaN
  end.

(** The values a field of the session payload may hold. *)
Inductive value : Type :=
  | VUndefined
  | VNull
  | VBool (b : bool)
  | VNumber (n : num)
  | VString (s : string)
  | VDate (d : date).

#[global] Instance num_eq_dec : EqDecision num.
Proof. unfold Num.num. solve_decision. Defined.

#[global] Instance value_eq_dec : EqDecision value.
Proof. unfold date, Num.num. solve_decision. Defined.

(** ToBoolean. *)
Definition truthy (v : value) : bool :=
  match v with
  | VUndefined | VNull => false
  | VBool b => b
  | VNumber n => Num.truthy n
  | VString s => negb (String.eqb s "")
  | VDate _ => true
  end.

(** A session payload, [Record<string, any>], and the content of the
    [sessionData] variable: an object or [undefined]. *)
Abbreviation obj := (gmap string value).
Abbreviation jsdata := (option obj).

(** [o.expires] and [sessionData?.expires]: a missing property reads as
    [undefined]. *)
Definition get_expires (o : obj) : value := default VUndefined (o !! "expires").

Definition opt_expires (sd : jsdata) : value :=
  match sd with
  | Some o => get_expires o
  | None => VUndefined
  end.

(** ** Configuration *)

(** [interface Secret]. *)
Record Secret : Type := mkSecret { id : Z; secret : string }.

Record cookieOptions : Type := mkCookieOptions {
  maxAge : num;
  httpOnly : bool;
  sameSite : string;
  path : string;
  domain : option string;
  secure : bool
}.

(** [rolling: number | boolean]. *)
Inductive rollingOption : Type :=
  | RollBool (b : bool)
  | RollNumber (n : num).

(** The normalised [options] object of [initializeSession]. *)
Record options : Type := mkOptions {
  key : string;
  expiresInDays : num;
  cookie : cookieOptions;
  rolling : rollingOption;
  secrets : list Secret
}.

(** The attribute object handed to [serialize]; [undefined] is [None]. *)
Record serializeOptions : Type := mkSerializeOptions {
  o_httpOnly : bool;
  o_path : string;
  o_sameSite : string;
  o_secure : bool;
  o_domain : option string;
  o_maxAge : option num;
  o_expires : option date
}.

(** ** The collaborators *)

Record World : Type := mkWorld {
  (** [encrypt(data, secret)] of zencrypt; [None] when the promise rejects. *)
  encrypt : jsdata → string → option string;
  (** [decrypt(ciphertext, secret)] of zencrypt; [None] when it throws. *)
  decrypt : string → string → option jsdata;
  (** [Number(s)] where the result is an integer, [None] otherwise. *)
  Number : string → option Z;
  (** [new Date(s)] on a string. *)
  Date_parse : string → date;
  (** [serialize(name, value, attributes)] of [./cookie.js]. *)
  serialize : string → string → serializeOptions → string;
  (** the calendar step of [daysToMaxage]: the time value of a copy of
      [today] after [setDate(today.getDate() + days)]. *)
  addDays : Z → num → date;
  (** the successive readings of the system clock, in milliseconds. *)
  clock : nat → Z
}.

(** ** The closure state of one [initializeSession] call *)

Record sessionFlags : Type := mkFlags {
  invalidDate : bool;
  shouldReEncrypt : bool;
  shouldDestroy : bool;
  shouldSendToClient : bool
}.

Record state : Type := mkState {
  sessionCookie : string;
  sessionState : sessionFlags;
  sessionData : jsdata;
  setCookie : option string;
  (** how many times the clock has been read so far *)
  ticks : nat
}.

Definition with_sessionCookie (c : string) (s : state) : state :=
  mkState c (sessionState s) (sessionData s) (setCookie s) (ticks s).
Definition with_sessionData (d : jsdata) (s : state) : state :=
  mkState (sessionCookie s) (sessionState s) d (setCookie s) (ticks s).
Definition with_setCookie (c : string) (s : state) : state :=
  mkState (sessionCookie s) (sessionState s) (sessionData s) (Some c) (ticks s).
Definition with_invalidDate (s : state) : state :=
  let f := sessionState s in
  mkState (sessionCookie s)
    (mkFlags true (shouldReEncrypt f) (shouldDestroy f) (shouldSendToClient f))
    (sessionData s) (setCookie s) (ticks s).
Definition with_shouldSendToClient (s : state) : state :=
  let f := sessionState s in
  mkState (sessionCookie s)
    (mkFlags (invalidDate f) (shouldReEncrypt f) (shouldDestroy f) true)
    (sessionData s) (setCookie s) (ticks s).
Definition tick (s : state) : state :=
  mkState (sessionCookie s) (sessionState s) (sessionData s) (setCookie s) (S (ticks s)).

(** ** A state monad with exceptions *)

Inductive outcome (A : Type) : Type :=
  | Returns (a : A) (s : state)
  | Throws (s : state).
Arguments Returns {A} a s.
Arguments Throws {A} s.

Definition M (A : Type) : Type := state → outcome A.

Definition ret {A} (a : A) : M A := λ s, Returns a s.
Definition throw {A} : M A := λ s, Throws s.
Definition bind {A B} (m : M A) (k : A → M B) : M B :=
  λ s, match m s with
       | Returns a s' => k a s'
       | Throws s' => Throws s'
       end.
(** [try { m } catch (error) { h }]: the handler runs in the state the throw
    left behind. *)
Definition try_catch {A} (m h : M A) : M A :=
  λ s, match m s with
       | Returns a s' => Returns a s'
       | Throws s' => h s'
       end.
Definition gets {A} (f : state → A) : M A := λ s, Returns (f s) s.
Definition modify (f : state → state) : M unit := λ s, Returns tt (f s).

Declare Scope js_scope.
Delimit Scope js_scope with js.
Notation "'let*' x ':=' m 'in' k" := (bind m (λ x, k))
  (at level 10, x name, m at level 100, k at level 200) : js_scope.
Notation "m ';;;' k" := (bind m (λ _, k))
  (at level 100, k at level 200, right associativity) : js_scope.

(** The final state of an outcome, whichever way it ended. *)
Definition final {A} (r : outcome A) : state :=
  match r with
  | Returns _ s => s
  | Throws s => s
  end.

(** ** Strings *)

(** [s.split(sep)] for a non-empty separator: [cur] is the piece being
    read, [skip] the number of characters of a separator still to pass. *)
Fixpoint split_go (sep : string) (skip : nat) (cur s : string) : list string :=
  match s with
  | EmptyString => [cur]
  | String c s' =>
      match skip with
      | S k => split_go sep k cur s'
      | O =>
          if String.prefix sep s
          then cur :: split_go sep (String.length sep - 1) "" s'
          else split_go sep 0 (cur +:+ String c "") s'
      end
  end.

Definition split (sep s : string) : list string := split_go sep 0 "" s.

(** The template-literal rendering of a secret id: its decimal numeral. *)
Definition String_of_id (z : Z) : string := NilZero.string_of_int (Z.to_int z).

(** ToBoolean on a possibly [undefined] string. *)
Definition truthy_string (s : option string) : bool :=
  match s with
  | Some x => negb (String.eqb x "")
  | None => false
  end.

(** The function a caller passes to [update]: what it returns, and what it
    does in place to the object it is handed (the [sessionData] object
    itself, not a copy). *)
Record callback : Type := mkCallback {
  cb_result : jsdata → jsdata;
  cb_effect : obj → obj
}.

Local Open Scope js_scope.

Section Core.

Context (W : World) (opts : options).

(** [new Date().getTime()] and [Date.now()]. *)
Definition now : M Z := λ s, Returns (clock W (ticks s)) (tick s).

(** [new Date(v)]. *)
Definition new_Date (v : value) : date :=
  match v with
  | VDate d => d
  | VString s => Date_parse W s
  | VNumber n => Date_of_num n
  | VBool b => Some (if b then 1 else 0)
  | VNull => Some 0
  | VUndefined => None
  end.

(** *** utils.ts *)

Definition daysToMaxage (days : num) : M num :=
  let* today := now in
  ret (Num.sub (Num.div (getTime (addDays W today days)) (Num.of_Z 1000))
               (Num.div (Num.of_Z today) (Num.of_Z 1000))).

Definition maxAgeToDateOfExpiry (maxAge : num) : M date :=
  let* n := now in
  ret (Date_of_num (Num.add (Num.of_Z n) (Num.mul maxAge (Num.of_Z 1000)))).

(** *** core.ts *)

(** The expression
    [new Date(e).getTime() / 1000 - new Date().getTime() / 1000],
    which the source writes out in [update], [set], [reEncryptSession] and
    the rolling block. *)
Definition remainingSeconds (e : value) : M num :=
  let* n := now in
  ret (Num.sub (Num.div (getTime (new_Date e)) (Num.of_Z 1000))
               (Num.div (Num.of_Z n) (Num.of_Z 1000))).

(** [let maxAge = options.cookie.maxAge;
     if (sessionData?.expires) { maxAge = ... }] *)
Definition lifetimeFor (sd : jsdata) : M num :=
  if truthy (opt_expires sd)
  then remainingSeconds (opt_expires sd)
  else ret (maxAge (cookie opts)).

Definition checkSessionExpiry : M unit :=
  let* sd := gets sessionData in
  match sd with
  | Some o =>
      if truthy (get_expires o) then
        let* n := now in
        if Num.lt (getTime (new_Date (get_expires o))) (Num.of_Z n)
        then modify with_invalidDate
        else ret tt
      else ret tt
  | None => ret tt
  end.

(** [options.secrets[0]], dereferenced: a TypeError on an empty ring. *)
Definition secret0 : M Secret :=
  match head (secrets opts) with
  | Some s => ret s
  | None => throw
  end.

(** The inner [encode] of [makeCookie]. *)
Definition encode : M string :=
  let* sd := gets sessionData in
  let* s0 := secret0 in
  match encrypt W sd (secret s0) with
  | Some c => ret (c +:+ "&id=" +:+ String_of_id (id s0))
  | None => throw
  end.

Definition makeCookie (maxAge : num) (destroy : bool) : M string :=
  let* v := (if destroy then ret "0" else encode) in
  let* e := (if destroy
             then let* n := now in ret (Some (Some (n - 360000000)))
             else ret None) in
  ret (serialize W (key opts) v
         {| o_httpOnly := httpOnly (cookie opts);
            o_path := path (cookie opts);
            o_sameSite := sameSite (cookie opts);
            o_secure := secure (cookie opts);
            o_domain := domain (cookie opts);
            o_maxAge := if destroy then None else Some maxAge;
            o_expires := e |}).

Definition destroySession : M unit :=
  modify (with_sessionData None) ;;;
  let* c := makeCookie (Num.of_Z 0) true in
  modify (with_setCookie c) ;;;
  modify with_shouldSendToClient.

Definition reEncryptSession : M unit :=
  let* sd := gets sessionData in
  match sd with
  | Some o =>
      let* maxAge := lifetimeFor (Some o) in
      modify (with_sessionData (Some o)) ;;;
      modify with_shouldSendToClient ;;;
      let* c := makeCookie maxAge false in
      modify (with_setCookie c)
  | None => ret tt
  end.

(** [const decodeID = secret_id ? Number(secret_id) : 1] *)
Definition decodeID (secret_id : option string) : option Z :=
  match secret_id with
  | Some s => if truthy_string secret_id then Number W s else Some 1
  | None => Some 1
  end.

(** [options.secrets.find((sec) => sec.id === decodeID)], then
    [if (!secret) secret = options.secrets[0]]. *)
Definition resolveSecret (d : option Z) : option Secret :=
  match List.find (λ sec, bool_decide (Some (id sec) = d)) (secrets opts) with
  | Some sec => Some sec
  | None => head (secrets opts)
  end.

(** [await decrypt(_sessionCookie, secret.secret)]: throws when [secret]
    is [undefined] or when the primitive rejects. *)
Definition decryptWith (c : string) (sec : option Secret) : option jsdata :=
  match sec with
  | Some s => decrypt W c (secret s)
  | None => None
  end.

Definition getSessionData : M jsdata :=
  let* sc := gets sessionCookie in
  let parts := split "&id=" sc in
  let _sessionCookie := List.hd "" parts in
  let secret_id := parts !! 1%nat in
  if (0 <? String.length _sessionCookie)%nat then
    let d := decodeID secret_id in
    let sec := resolveSecret d in
    modify (with_sessionCookie _sessionCookie) ;;;
    try_catch
      (match decryptWith _sessionCookie sec with
       | Some decrypted =>
           modify (with_sessionData decrypted) ;;;
           checkSessionExpiry ;;;
           let* s0 := secret0 in
           (if bool_decide (Some (id s0) = d) then ret tt else reEncryptSession) ;;;
           gets sessionData
       | None => throw
       end)
      (destroySession ;;; ret None)
  else ret None.

(** *** The handle *)

(** [{ ...d }] of a possibly [undefined] value. *)
Definition spread (d : jsdata) : obj := default ∅ d.

Definition update (updateFn : callback) : M jsdata :=
  let* sd := gets sessionData in
  let _sd := cb_result updateFn sd in
  modify (with_sessionData (cb_effect updateFn <$> sd)) ;;;
  let* sd' := gets sessionData in
  let* maxAge := lifetimeFor sd' in
  let* e := maxAgeToDateOfExpiry maxAge in
  modify (with_sessionData (Some (<["expires" := VDate e]> (spread _sd)))) ;;;
  modify with_shouldSendToClient ;;;
  let* c := makeCookie maxAge false in
  modify (with_setCookie c) ;;;
  gets sessionData.

Definition set (data : jsdata) : M jsdata :=
  let* sd := gets sessionData in
  let* maxAge := lifetimeFor sd in
  let* e := maxAgeToDateOfExpiry maxAge in
  modify (with_sessionData (Some (<["expires" := VDate e]> (spread data)))) ;;;
  modify with_shouldSendToClient ;;;
  let* c := makeCookie maxAge false in
  modify (with_setCookie c) ;;;
  gets sessionData.

(** The [data] getter. *)
Definition data (s : state) : obj :=
  match sessionData s with
  | Some o =>
      if negb (invalidDate (sessionState s)) && negb (shouldDestroy (sessionState s))
      then o else ∅
  | None => ∅
  end.

(** The ['set-cookie'] getter. *)
Definition set_cookie (s : state) : option string := setCookie s.

Definition refresh (expiresInDays' : option num) : M bool :=
  let* sd := gets sessionData in
  match sd with
  | None => ret false
  | Some o =>
      let days := match expiresInDays' with
                  | Some n => if Num.truthy n then n else expiresInDays opts
                  | None => expiresInDays opts
                  end in
      let* newMaxAge := daysToMaxage days in
      let* e := maxAgeToDateOfExpiry newMaxAge in
      modify (with_sessionData (Some (<["expires" := VDate e]> o))) ;;;
      let* c := makeCookie newMaxAge false in
      modify (with_setCookie c) ;;;
      modify with_shouldSendToClient ;;;
      ret true
  end.

Definition destroy : M bool := destroySession ;;; ret true.

(** *** The rolling block and the whole of [initializeSession] *)

Definition rolling_truthy (r : rollingOption) : bool :=
  match r with
  | RollBool b => b
  | RollNumber n => Num.truthy n
  end.

Definition rollingRefresh : M unit :=
  if rolling_truthy (rolling opts) then
    let* _sd := gets sessionData in
    match rolling opts with
    | RollNumber p =>
        if truthy (opt_expires _sd) then
          let* r := remainingSeconds (opt_expires _sd) in
          let differenceInSeconds := Num.round r in
          if Num.lt differenceInSeconds
               (Num.mul (Num.div p (Num.of_Z 100)) (maxAge (cookie opts)))
          then refresh None ;;; ret tt
          else ret tt
        else refresh None ;;; ret tt
    | RollBool _ => refresh None ;;; ret tt
    end
  else ret tt.

(** The closure variables as [initializeSession] declares them (lines
    43-54), for the session cookie value [c] found under [options.key]
    ([''] when there is none) and a clock already read [t] times. *)
Definition initial (c : string) (t : nat) : state :=
  mkState c (mkFlags false false false false) None None t.

(** [initializeSession] once [options] is normalised and the closure
    variables are set up: [await getSessionData()], then the rolling block;
    the handle it returns is the operations above on the resulting state. *)
Definition initializeSession : M unit :=
  getSessionData ;;; rollingRefresh.

End Core.

(** ** Vocabulary of the statements *)

(** [occurs sep s]: [sep] (non-empty) starts at some position of [s]. *)
Fixpoint occurs (sep s : string) : bool :=
  match s with
  | EmptyString => false
  | String _ s' => String.prefix sep s || occurs sep s'
  end.

(** No character of [s] is [a]. *)
Fixpoint lacks (a : ascii) (s : string) : bool :=
  match s with
  | EmptyString => true
  | String b s' => negb (Ascii.eqb a b) && lacks a s'
  end.

(** [m] keeps [P]: from a state with [P] it ends, by return or by throw, in
    a state with [P]. *)
Definition preserves {A} (P : state → Prop) (m : M A) : Prop :=
  ∀ s, P s → P (final (m s)).

(** The session of the request has been found expired. *)
Definition flagged (s : state) : Prop := invalidDate (sessionState s) = true.

Section Derived.

Context (W : World) (opts : options).

(** The state [checkSessionExpiry] leaves behind: the clock is read only
    when there is a truthy [expires], and only [invalidDate] can change. *)
Definition afterExpiryCheck (s : state) : state :=
  if truthy (opt_expires (sessionData s)) then
    if Num.lt (getTime (new_Date W (opt_expires (sessionData s))))
              (Num.of_Z (clock W (ticks s)))
    then with_invalidDate (tick s)
    else tick s
  else s.

(** The destroy path: the payload is dropped and the sentinel directive,
    dated 360000 seconds before the clock reading, is stored. *)
Definition destroyDirective (n : Z) : string :=
  serialize W (key opts) "0"
    {| o_httpOnly := httpOnly (cookie opts);
       o_path := path (cookie opts);
       o_sameSite := sameSite (cookie opts);
       o_secure := secure (cookie opts);
       o_domain := domain (cookie opts);
       o_maxAge := None;
       o_expires := Some (Some (n - 360000000)) |}.

Definition destroyed (s : state) : state :=
  with_shouldSendToClient
    (with_setCookie (destroyDirective (clock W (ticks s)))
       (tick (with_sessionData None s))).

(** The directive of a live cookie: value [v], the given max-age, no
    [expires] attribute. *)
Definition liveDirective (v : string) (m : num) : string :=
  serialize W (key opts) v
    {| o_httpOnly := httpOnly (cookie opts);
       o_path := path (cookie opts);
       o_sameSite := sameSite (cookie opts);
       o_secure := secure (cookie opts);
       o_domain := domain (cookie opts);
       o_maxAge := Some m;
       o_expires := None |}.

(** The remaining lifetime, in seconds, of an [expires] value at the
    clock reading [n]: [new Date(e).getTime() / 1000 - n / 1000]. *)
Definition remaining (e : value) (n : Z) : num :=
  Num.sub (Num.div (getTime (new_Date W e)) (Num.of_Z 1000))
          (Num.div (Num.of_Z n) (Num.of_Z 1000)).

(** The max-age [update], [set] and [reEncryptSession] settle on. *)
Definition lifetimeAt (sd : jsdata) (n : Z) : num :=
  if truthy (opt_expires sd) then remaining (opt_expires sd) n
  else maxAge (cookie opts).

(** What [set] and [update] do once the max-age [m] is settled, from the
    state [s] in which [maxAgeToDateOfExpiry] reads the clock: the object
    stored, and the outcome. *)
Definition stamped (d : jsdata) (m : num) (s : state) : obj :=
  <["expires" := VDate (Date_of_num (Num.add (Num.of_Z (clock W (ticks s)))
                                             (Num.mul m (Num.of_Z 1000))))]>
    (spread d).

Definition stored (d : jsdata) (m : num) (s : state) : state :=
  with_shouldSendToClient (with_sessionData (Some (stamped d m s)) (tick s)).

Definition sent (d : jsdata) (m : num) (s : state) : outcome jsdata :=
  match head (secrets opts) with
  | Some s0 =>
      match encrypt W (Some (stamped d m s)) (secret s0) with
      | Some c =>
          Returns (Some (stamped d m s))
            (with_setCookie
               (liveDirective (c +:+ "&id=" +:+ String_of_id (id s0)) m)
               (stored d m s))
      | None => Throws (stored d m s)
      end
  | None => Throws (stored d m s)
  end.

(** The state in which the expiry is computed, after the max-age. *)
Definition afterLifetime (sd : jsdata) (s : state) : state :=
  if truthy (opt_expires sd) then tick s else s.


(** [(percentage / 100) * options.cookie.maxAge] *)
Definition threshold (p : num) : num :=
  Num.mul (Num.div p (Num.of_Z 100)) (maxAge (cookie opts)).

End Derived.

(** ** A worked deployment *)

(** The ring of the rotation scenario: a new secret with id 2 in front of
    the retired secret with id 1; lifetime 7 days.  [seal] and [unseal]
    stand for the cipher on the few ciphertexts used below. *)
Module Scenario.

Definition t0 : Z := 1700000000000.

Definition admin : obj :=
  <["expires" := VDate (Some (t0 + 3600000))]> (<["role" := VString "admin"]> ∅).

Definition stale : obj :=
  <["expires" := VDate (Some (t0 - 1000))]> (<["role" := VString "admin"]> ∅).

(** 60479.6 seconds left at [t0]. *)
Definition nearly : obj :=
  <["expires" := VDate (Some (t0 + 60479600))]> (<["role" := VString "admin"]> ∅).

Definition bob : obj := <["user" := VString "bob"]> ∅.

Definition ring : list Secret := [mkSecret 2 "new"; mkSecret 1 "old"].

Definition opts (r : rollingOption) : options :=
  mkOptions "kit.session" (Num.of_Z 7)
    (mkCookieOptions (Num.of_Z 604800) true "lax" "/" None true) r ring.

(** [Number] on the numerals this ring can meet. *)
Definition number (s : string) : option Z :=
  if String.eqb s "1" then Some 1
  else if String.eqb s "2" then Some 2
  else if String.eqb s "3" then Some 3
  else None.

Definition seal (d : jsdata) (k : string) : option string :=
  if bool_decide (d = Some admin ∧ k = "new") then Some "ADMIN.NEW"
  else Some "SEALED".

Definition unseal (c k : string) : option jsdata :=
  if bool_decide (c = "ADMIN.NEW" ∧ k = "new") then Some (Some admin)
  else if bool_decide (c = "ADMIN.OLD" ∧ k = "old") then Some (Some admin)
  else if bool_decide (c = "STALE.NEW" ∧ k = "new") then Some (Some stale)
  else if bool_decide (c = "NEARLY.NEW" ∧ k = "new") then Some (Some nearly)
  else None.

(** The directive as a string: name, value, the max-age in whole
    seconds, and a mark when an [expires] attribute makes it a deletion. *)
Definition show (name v : string) (o : serializeOptions) : string :=
  name +:+ "=" +:+ v +:+
  (match o_maxAge o with
   | Some q =>
       "; Max-Age=" +:+
       (match Num.floor q with Some z => String_of_id z | None => "NaN" end)
   | None => ""
   end) +:+
  (match o_expires o with Some _ => "; Expires=<past>" | None => "" end).

(** A clock that stands still at [t0], and days of 86400 seconds. *)
Definition world : World :=
  mkWorld seal unseal number (λ _, None) show
    (λ today days,
       Date_of_num (Num.add (Num.of_Z today) (Num.mul days (Num.of_Z 86400000))))
    (λ _, t0).

End Scenario.

(** A request with an expired session: the cookie [STALE.NEW&id=2] decodes,
    under the current secret, into a session whose [expires] lies one second
    before the clock; rolling is off and the default lifetime is 604800
    seconds. *)
Definition stale_request : state :=
  final (initializeSession Scenario.world (Scenario.opts (RollBool false))
           (initial "STALE.NEW&id=2" 0)).

(** A request just under the rolling threshold: rolling at 10 percent of
    604800 seconds, that is a threshold of 60480 seconds, and a cookie that
    decodes into a live session with 60479.6 seconds left. *)
Definition nearly_request : state :=
  final (getSessionData Scenario.world (Scenario.opts (RollNumber (Num.of_Z 10)))
           (initial "NEARLY.NEW&id=2" 0)).

(** ** The calls a request makes on its handle *)

(** One call of a method of [session]. *)
Inductive operation : Type :=
  | OpSet (d : jsdata)
  | OpUpdate (f : callback)
  | OpRefresh (e : option num)
  | OpDestroy.

Section Calls.

Context (W : World) (opts : options).

Definition perform (o : operation) : M unit :=
  match o with
  | OpSet d => set W opts d ;;; ret tt
  | OpUpdate f => update W opts f ;;; ret tt
  | OpRefresh e => refresh W opts e ;;; ret tt
  | OpDestroy => destroy W opts ;;; ret tt
  end.

(** The closure state after a series of calls, each started in the state
    the one before it left behind, whether that one returned or threw (a
    caller may catch the rejection and go on). *)
Definition after_calls (l : list operation) (s : state) : state :=
  fold_left (λ s' o, final (perform o s')) l s.

End Calls.

(** Neither of the two flags that are declared and never assigned is
    raised. *)
Definition unraised (s : state) : Prop :=
  shouldReEncrypt (sessionState s) = false ∧ shouldDestroy (sessionState s) = false.

(** ** The caller's options *)

(** Modelled from the spec: the type [SessionOptions] of [./types] is not
    among the sources; its fields are the ones the two normalisers read
    and section 6 of the specification lists, each optional ([None] is
    [undefined] or [null]).  [sameSite] is kept a string and [init], a
    function of the framework's request event, an element of a type [I]. *)
Record userCookie : Type := mkUserCookie {
  u_httpOnly : option bool;
  u_sameSite : option string;
  u_path : option string;
  u_domain : option string;
  u_secure : option bool
}.

Record SessionOptions (I : Type) : Type := mkSessionOptions {
  u_secret : option (string + list Secret);
  u_key : option string;
  u_expires : option num;
  u_cookie : option userCookie;
  u_rolling : option rollingOption;
  u_chunked : option bool;
  u_init : option I
}.
Arguments mkSessionOptions {I}.
Arguments u_secret {I}.
Arguments u_key {I}.
Arguments u_expires {I}.
Arguments u_cookie {I}.
Arguments u_rolling {I}.
Arguments u_chunked {I}.
Arguments u_init {I}.

(** [interface NormalizedConfig]. *)
Record NormalizedConfig (I : Type) : Type := mkNormalizedConfig {
  n_init : I;
  n_key : string;
  n_expiresInDays : num;
  n_chunked : bool;
  n_cookie : cookieOptions;
  n_rolling : rollingOption;
  n_secrets : list Secret
}.
Arguments mkNormalizedConfig {I}.
Arguments n_init {I}.
Arguments n_key {I}.
Arguments n_expiresInDays {I}.
Arguments n_chunked {I}.
Arguments n_cookie {I}.
Arguments n_rolling {I}.
Arguments n_secrets {I}.

(** [a || b] on an optional string and on an optional number: the empty
    string, 0 and NaN are falsy. *)
Definition or_string (a : option string) (b : string) : string :=
  match a with
  | Some x => if String.eqb x "" then b else x
  | None => b
  end.

Definition or_num (a : option num) (b : num) : num :=
  match a with
  | Some x => if Num.truthy x then x else b
  | None => b
  end.

(** [options?.cookie?.f]. *)
Definition cookie_field {A} (f : userCookie → option A) (c : option userCookie) : option A :=
  match c with
  | Some x => f x
  | None => None
  end.

(** [Array.isArray(secret) ? secret : [{ id: 1, secret }]] *)
Definition ring_of (sec : string + list Secret) : list Secret :=
  match sec with
  | inr l => l
  | inl x => [mkSecret 1 x]
  end.


Section Normalise.

Context (W : World) {I : Type}.

(** Lines 10-34 of [initializeSession]: the check on [secret] and the
    [options] object; [isSecureCookie] is what the environment says. *)
Definition options_of (u : SessionOptions I) (isSecureCookie : bool) : M options :=
  match u_secret u with
  | None => throw
  | Some sec =>
      let days := default (Num.of_Z 7) (u_expires u) in
      let* m := daysToMaxage W days in
      ret (mkOptions
             (default "kit.session" (u_key u))
             days
             (mkCookieOptions m
                (default true (cookie_field u_httpOnly (u_cookie u)))
                (default "lax" (cookie_field u_sameSite (u_cookie u)))
                (default "/" (cookie_field u_path (u_cookie u)))
                (cookie_field u_domain (u_cookie u))
                (default isSecureCookie (cookie_field u_secure (u_cookie u))))
             (default (RollBool false) (u_rolling u))
             (ring_of sec))
  end.

(** [normalizeConfig] of the utilities; [noop] is [() => ({})]. *)
Definition normalizeConfig (noop : I) (u : SessionOptions I) (isSecure : bool)
  : M (NormalizedConfig I) :=
  match u_secret u with
  | None => throw
  | Some sec =>
      let init := default noop (u_init u) in
      let* m := daysToMaxage W (or_num (u_expires u) (Num.of_Z 7)) in
      ret (mkNormalizedConfig
             init
             (or_string (u_key u) "kit.session")
             (or_num (u_expires u) (Num.of_Z 7))
             (default false (u_chunked u))
             (mkCookieOptions m
                (default true (cookie_field u_httpOnly (u_cookie u)))
                (or_string (cookie_field u_sameSite (u_cookie u)) "lax")
                (or_string (cookie_field u_path (u_cookie u)) "/")
                (match cookie_field u_domain (u_cookie u) with
                 | Some x => if String.eqb x "" then None else Some x
                 | None => None
                 end)
                (default isSecure (cookie_field u_secure (u_cookie u))))
             (default (RollBool false) (u_rolling u))
             (ring_of sec))
  end.

(** The whole of [initializeSession]: the options, the cookies that
    [parse] finds in the cookie string (or in the [cookie] header of a
    [Headers] object, [None] when it has none), the session cookie under
    [options.key], then decoding and the rolling block.  It returns the
    options the handle works with and the cookies. *)
Definition initializeSession_from (parse : string → gmap string string)
    (headersOrCookieString : string + option string)
    (u : SessionOptions I) (isSecureCookie : bool)
  : M (options * gmap string string) :=
  let* opts := options_of u isSecureCookie in
  let cookies :=
    parse (match headersOrCookieString with
           | inl str => str
           | inr header => or_string header ""
           end) in
  modify (with_sessionCookie (or_string (cookies !! key opts) "")) ;;;
  initializeSession W opts ;;;
  ret (opts, cookies).

End Normalise.

(** ** More of the worked deployment *)

(** A request with a live session under the current secret. *)
Definition admin_request : state :=
  final (getSessionData Scenario.world (Scenario.opts (RollBool false))
           (initial "ADMIN.NEW&id=2" 0)).

(** The deployment with a cipher whose [encrypt] always rejects. *)
Definition jammed : World :=
  mkWorld (λ _ _, None) Scenario.unseal Scenario.number (λ _, None) Scenario.show
    (addDays Scenario.world) (clock Scenario.world).

(** Options that give the secret alone, as one string, as an empty array
    and with [expires: 0]. *)
Definition plain_options : SessionOptions unit :=
  mkSessionOptions (Some (inl "new")) None None None None None None.

Definition ringless_options : SessionOptions unit :=
  mkSessionOptions (Some (inr [])) None None None None None None.

Definition zero_days_options : SessionOptions unit :=
  mkSessionOptions (Some (inl "new")) None (Some (Num.of_Z 0)) None None None None.

(** * Properties *)

(** ** Splitting an encoded cookie value *)

Example split_tagged : split "&id=" "abc&id=2" = ["abc"; "2"].
Proof. reflexivity. Qed.

Example split_untagged : split "&id=" "abc" = ["abc"].
Proof. reflexivity. Qed.

Example split_empty : split "&id=" "" = [""].
Proof. reflexivity. Qed.

Example split_twice : split "&id=" "abc&id=2&id=3" = ["abc"; "2"; "3"].
Proof. reflexivity. Qed.

Example split_no_payload : split "&id=" "&id=2" = [""; "2"].
Proof. reflexivity. Qed.

Example String_of_id_negative : String_of_id (-12) = "-12".
Proof. reflexivity. Qed.

Example round_half_up :
  Num.round (Num.div (Num.of_Z 5) (Num.of_Z 2)) = Num.of_Z 3 ∧
  Num.round (Num.div (Num.of_Z (-5)) (Num.of_Z 2)) = Num.of_Z (-2).
Proof. split; vm_compute; reflexivity. Qed.

(** ** Numbers are doubles *)

(** [7 / 100] is the double 0x1.1eb851eb851ecp-4, not 7/100, and
    [(7 / 100) * 604800] is 42336.00000000001, the double after 42336. *)
Example seven_percent :
  Num.div (Num.of_Z 7) (Num.of_Z 100)
    = SpecFloat.S754_finite false 5044031582654956 (-56) ∧
  Num.mul (Num.div (Num.of_Z 7) (Num.of_Z 100)) (Num.of_Z 604800)
    = SpecFloat.S754_finite false 5818615534190593 (-37) ∧
  Num.lt (Num.of_Z 42336)
         (Num.mul (Num.div (Num.of_Z 7) (Num.of_Z 100)) (Num.of_Z 604800)) = true ∧
  Num.mul (Num.div (Num.of_Z 10) (Num.of_Z 100)) (Num.of_Z 604800) = Num.of_Z 60480.
Proof. vm_compute. repeat split; reflexivity. Qed.

(** Seconds and back lose a millisecond: with the clock at 1700000000002
    and an expiry at 1700003600004, [now + (t / 1000 - now / 1000) * 1000]
    is 1700003600003.9998, which [new Date] truncates. *)
Example a_millisecond_short :
  Date_of_num
    (Num.add (Num.of_Z 1700000000002)
       (Num.mul (Num.sub (Num.div (Num.of_Z 1700003600004) (Num.of_Z 1000))
                         (Num.div (Num.of_Z 1700000000002) (Num.of_Z 1000)))
                (Num.of_Z 1000)))
  = Some 1700003600003.
Proof. vm_compute. reflexivity. Qed.

(** Seven days of 86400 seconds, taken as a difference of two quotients at
    the clock 2147183648002, are 604799.9999997616 seconds. *)
Example seven_days_short :
  Num.sub (Num.div (Num.of_Z (2147183648002 + 7 * 86400000)) (Num.of_Z 1000))
          (Num.div (Num.of_Z 2147183648002) (Num.of_Z 1000))
    = SpecFloat.S754_finite false 5195192441239552 (-33) ∧
  Num.lt (Num.sub (Num.div (Num.of_Z (2147183648002 + 7 * 86400000)) (Num.of_Z 1000))
                  (Num.div (Num.of_Z 2147183648002) (Num.of_Z 1000)))
         (Num.of_Z 604800) = true.
Proof. vm_compute. repeat split; reflexivity. Qed.

Example Date_of_num_limits :
  Date_of_num Num.NaN = None ∧
  Date_of_num (Num.div (Num.of_Z 1) (Num.of_Z 0)) = None ∧
  Date_of_num (Num.of_Z 8640000000000001) = None ∧
  Date_of_num (Num.of_Z (-8640000000000000)) = Some (-8640000000000000) ∧
  Date_of_num (Num.div (Num.of_Z (-3)) (Num.of_Z 2)) = Some (-1).
Proof. vm_compute. repeat split; reflexivity. Qed.

Example round_keeps_sign_of_zero :
  Num.round (Num.div (Num.of_Z (-1)) (Num.of_Z 2)) = SpecFloat.S754_zero true ∧
  Num.round (Num.div (Num.of_Z 1) (Num.of_Z 4)) = SpecFloat.S754_zero false ∧
  Num.round Num.NaN = Num.NaN.
Proof. vm_compute. repeat split; reflexivity. Qed.

Lemma append_nil (t : string) : "" +:+ t = t.
Proof. reflexivity. Qed.

Lemma append_cons (a : ascii) (s t : string) : String a s +:+ t = String a (s +:+ t).
Proof. reflexivity. Qed.

Lemma append_String_assoc (cur : string) (a : ascii) (s : string) :
  (cur +:+ String a "") +:+ s = cur +:+ String a s.
Proof.
  induction cur as [|b cur IH]; [reflexivity|].
  rewrite !append_cons. f_equal. exact IH.
Qed.

Lemma append_empty_r (s : string) : s +:+ "" = s.
Proof. induction s as [|a s IH]; [reflexivity|]. rewrite append_cons. f_equal. exact IH. Qed.

(** The marker has no border: an occurrence cannot start inside a piece
    and end inside the marker that follows it. *)
Lemma prefix_marker_straddle (s r : string) :
  s ≠ "" → String.prefix "&id=" (s +:+ "&id=" +:+ r) = String.prefix "&id=" s.
Proof.
  intros Hs.
  destruct s as [|a [|b [|c [|d s']]]]; [congruence| | | |];
    rewrite ?append_cons, ?append_nil; cbn [String.prefix];
    repeat (destruct (ascii_dec _ _) as [?|?]; try reflexivity; try congruence).
  now destruct s'.
Qed.

Lemma lacks_no_prefix (s : string) :
  lacks "&" s = true → String.prefix "&id=" s = false.
Proof.
  destruct s as [|a s]; cbn [String.prefix lacks]; [reflexivity|].
  destruct (ascii_dec "&" a) as [<-|?]; [|reflexivity].
  discriminate.
Qed.

Lemma lacks_occurs (s : string) : lacks "&" s = true → occurs "&id=" s = false.
Proof.
  induction s as [|a s IH]; [reflexivity|].
  intros H. cbn [occurs]. rewrite (lacks_no_prefix _ H).
  simpl in H. apply andb_prop in H as [_ H]. now apply IH.
Qed.

(** A piece without the marker is read as a whole. *)
Lemma split_go_free (cur r : string) :
  occurs "&id=" r = false → split_go "&id=" 0 cur r = [cur +:+ r].
Proof.
  revert cur. induction r as [|a r IH]; intros cur H.
  - simpl. now rewrite append_empty_r.
  - cbn [occurs] in H. apply orb_false_elim in H as [Hp Ho].
    cbn [split_go]. rewrite Hp, (IH _ Ho). now rewrite append_String_assoc.
Qed.

(** [c&id=r] splits into [c] and [r] when neither holds the marker. *)
Lemma split_go_encoded (cur c r : string) :
  occurs "&id=" c = false → occurs "&id=" r = false →
  split_go "&id=" 0 cur (c +:+ "&id=" +:+ r) = [cur +:+ c; r].
Proof.
  intros Hc Hr. revert cur Hc. induction c as [|a c IH]; intros cur Hc.
  - rewrite append_empty_r, append_nil, !append_cons, append_nil.
    cbn. replace (String.prefix "" r) with true by now destruct r.
    now rewrite (split_go_free "" r Hr).
  - cbn [occurs] in Hc. apply orb_false_elim in Hc as [Hp Ho].
    rewrite append_cons. cbn [split_go]. rewrite <- append_cons.
    rewrite prefix_marker_straddle, Hp by discriminate.
    rewrite (IH _ Ho). now rewrite append_String_assoc.
Qed.

Lemma split_encoded (c r : string) :
  occurs "&id=" c = false → occurs "&id=" r = false →
  split "&id=" (c +:+ "&id=" +:+ r) = [c; r].
Proof. intros Hc Hr. unfold split. now rewrite split_go_encoded. Qed.

(** Decimal numerals hold digits and at most a sign. *)
Lemma lacks_string_of_uint (d : Decimal.uint) :
  lacks "&" (NilEmpty.string_of_uint d) = true.
Proof. induction d; simpl; auto. Qed.

Lemma String_of_id_lacks (z : Z) : lacks "&" (String_of_id z) = true.
Proof.
  unfold String_of_id, NilZero.string_of_int, NilZero.string_of_uint.
  destruct (Z.to_int z) as [d|d]; destruct d; simpl; auto using lacks_string_of_uint.
Qed.

Lemma String_of_id_nonempty (z : Z) : String.eqb (String_of_id z) "" = false.
Proof.
  unfold String_of_id, NilZero.string_of_int, NilZero.string_of_uint.
  destruct (Z.to_int z) as [d|d]; destruct d; reflexivity.
Qed.

(** ** Stepping through the monad *)

Section Steps.

Context (W : World) (opts : options).

Lemma checkSessionExpiry_eq (s : state) :
  checkSessionExpiry W s = Returns tt (afterExpiryCheck W s).
Proof.
  unfold checkSessionExpiry, afterExpiryCheck, bind, gets.
  destruct (sessionData s) as [o|]; simpl; [|reflexivity].
  destruct (truthy (get_expires o)); [|reflexivity].
  unfold now. simpl.
  now destruct (Num.lt _ _).
Qed.

Lemma afterExpiryCheck_sessionData (s : state) :
  sessionData (afterExpiryCheck W s) = sessionData s.
Proof.
  unfold afterExpiryCheck.
  destruct (truthy _); [destruct (Num.lt _ _)|]; reflexivity.
Qed.

Lemma afterExpiryCheck_setCookie (s : state) :
  setCookie (afterExpiryCheck W s) = setCookie s.
Proof.
  unfold afterExpiryCheck.
  destruct (truthy _); [destruct (Num.lt _ _)|]; reflexivity.
Qed.

Lemma afterExpiryCheck_sessionCookie (s : state) :
  sessionCookie (afterExpiryCheck W s) = sessionCookie s.
Proof.
  unfold afterExpiryCheck.
  destruct (truthy _); [destruct (Num.lt _ _)|]; reflexivity.
Qed.

(** [find] stops at the head of the ring when the head carries the id. *)
Lemma resolveSecret_head (s0 : Secret) :
  head (secrets opts) = Some s0 →
  resolveSecret opts (Some (id s0)) = Some s0.
Proof.
  unfold resolveSecret. destruct (secrets opts) as [|x l]; [discriminate|].
  intros [= ->]. simpl. now rewrite bool_decide_eq_true_2.
Qed.

Lemma secret0_eq (s0 : Secret) (s : state) :
  head (secrets opts) = Some s0 → secret0 opts s = Returns s0 s.
Proof. unfold secret0. now intros ->. Qed.

Lemma destroySession_eq (s : state) :
  destroySession W opts s = Returns tt (destroyed W opts s).
Proof. reflexivity. Qed.

Lemma encode_ok (s : state) (s0 : Secret) (c : string) :
  head (secrets opts) = Some s0 →
  encrypt W (sessionData s) (secret s0) = Some c →
  encode W opts s = Returns (c +:+ "&id=" +:+ String_of_id (id s0)) s.
Proof.
  intros H0 Hc. unfold encode, bind, gets. rewrite (secret0_eq _ _ H0).
  now rewrite Hc.
Qed.

Lemma makeCookie_ok (s : state) (s0 : Secret) (c : string) (m : num) :
  head (secrets opts) = Some s0 →
  encrypt W (sessionData s) (secret s0) = Some c →
  makeCookie W opts m false s
  = Returns (liveDirective W opts (c +:+ "&id=" +:+ String_of_id (id s0)) m) s.
Proof.
  intros H0 Hc. unfold makeCookie, bind. now rewrite (encode_ok _ _ _ H0 Hc).
Qed.

Lemma makeCookie_throws (s : state) (m : num) :
  match head (secrets opts) with
  | Some s0 => encrypt W (sessionData s) (secret s0) = None
  | None => True
  end →
  makeCookie W opts m false s = Throws s.
Proof.
  unfold makeCookie, encode, secret0, bind, gets.
  destruct (head (secrets opts)) as [s0|]; [|reflexivity].
  intros H. unfold ret. now rewrite H.
Qed.

End Steps.

(** ** The codec *)

Section Codec.

Context (W : World) (opts : options).

(** What [getSessionData] does once the payload portion [p] and the id
    segment are known and decryption has produced [decrypted]. *)
Lemma getSessionData_decrypted (s : state) (p : string) (sid : option string)
    (rest : list string) (decrypted : jsdata) (s0 : Secret) :
  split "&id=" (sessionCookie s) = p :: rest →
  rest !! 0%nat = sid →
  p ≠ "" →
  head (secrets opts) = Some s0 →
  decryptWith W p (resolveSecret opts (decodeID W sid)) = Some decrypted →
  getSessionData W opts s =
    let s1 := afterExpiryCheck W (with_sessionData decrypted (with_sessionCookie p s)) in
    if bool_decide (Some (id s0) = decodeID W sid)
    then Returns (sessionData s1) s1
    else try_catch
           (reEncryptSession W opts ;;; gets sessionData)
           (destroySession W opts ;;; ret None) s1.
Proof.
  intros Hsplit Hsid Hp H0 Hdec.
  unfold getSessionData, bind at 1, gets at 1. rewrite Hsplit. cbn [List.hd].
  change ((p :: rest) !! 1%nat) with (rest !! 0%nat). rewrite Hsid.
  destruct p as [|a p]; [congruence|]. cbn [String.length Nat.ltb Nat.leb].
  rewrite Hdec.
  unfold try_catch, bind at 1, modify at 1.
  unfold bind at 1, modify at 1.
  unfold bind at 1. rewrite checkSessionExpiry_eq.
  unfold bind at 1. rewrite (secret0_eq _ _ _ H0).
  cbv zeta.
  destruct (bool_decide (Some (id s0) = decodeID W sid)); reflexivity.
Qed.

(** C1. Round trip: the value [encode] builds from a payload [P] under
    the head [s0] of the ring -- the ciphertext of [P] under [s0], then
    [&id=], then the id of [s0] -- is decoded by [getSessionData] into [P]
    again, with the id of [s0] as the decode id and [s0] as the secret
    used; no directive is scheduled.  The primitives are assumed to behave
    as a cipher does: [decrypt] inverts [encrypt] on this ciphertext, which
    is non-empty and free of the marker, and [Number] reads back the
    numeral of the id. *)
Theorem codec_round_trip (P : jsdata) (s0 : Secret) (c : string) (s : state) (t : nat) :
  head (secrets opts) = Some s0 →
  sessionData s = P →
  encrypt W P (secret s0) = Some c →
  decrypt W c (secret s0) = Some P →
  c ≠ "" →
  occurs "&id=" c = false →
  Number W (String_of_id (id s0)) = Some (id s0) →
  let v := c +:+ "&id=" +:+ String_of_id (id s0) in
  encode W opts s = Returns v s ∧
  decodeID W (split "&id=" v !! 1%nat) = Some (id s0) ∧
  resolveSecret opts (decodeID W (split "&id=" v !! 1%nat)) = Some s0 ∧
  ∃ s', getSessionData W opts (initial v t) = Returns P s' ∧
        sessionData s' = P ∧ setCookie s' = None.
Proof.
  intros H0 HP Henc Hdec Hne Hfree Hnum v.
  assert (Hsplit : split "&id=" v = [c; String_of_id (id s0)]).
  { apply split_encoded; [exact Hfree|].
    apply lacks_occurs, String_of_id_lacks. }
  assert (Hid : decodeID W (Some (String_of_id (id s0))) = Some (id s0)).
  { unfold decodeID, truthy_string. now rewrite String_of_id_nonempty. }
  split; [|split; [|split]].
  - subst P. now apply encode_ok.
  - rewrite Hsplit. exact Hid.
  - rewrite Hsplit. cbn [lookup list_lookup]. rewrite Hid. now apply resolveSecret_head.
  - rewrite (getSessionData_decrypted (initial v t) c (Some (String_of_id (id s0)))
               [String_of_id (id s0)] P s0); try done.
    + cbv zeta. rewrite Hid, bool_decide_eq_true_2 by reflexivity.
      eexists. split; [f_equal; apply afterExpiryCheck_sessionData|].
      split; [apply afterExpiryCheck_sessionData|].
      now rewrite afterExpiryCheck_setCookie.
    + rewrite Hid, (resolveSecret_head _ _ H0). exact Hdec.
Qed.

End Codec.

Lemma codec_round_trip_witness :
  let v := "ADMIN.NEW&id=2" in
  let s := with_sessionData (Some Scenario.admin) (initial "" 0) in
  encode Scenario.world (Scenario.opts (RollBool false)) s = Returns v s ∧
  decodeID Scenario.world (split "&id=" v !! 1%nat) = Some 2 ∧
  resolveSecret (Scenario.opts (RollBool false))
    (decodeID Scenario.world (split "&id=" v !! 1%nat)) = Some (mkSecret 2 "new") ∧
  ∃ s', getSessionData Scenario.world (Scenario.opts (RollBool false)) (initial v 0)
          = Returns (Some Scenario.admin) s' ∧
        sessionData s' = Some Scenario.admin ∧ setCookie s' = None.
Proof.
  apply (codec_round_trip Scenario.world (Scenario.opts (RollBool false))
           (Some Scenario.admin) (mkSecret 2 "new") "ADMIN.NEW"
           (with_sessionData (Some Scenario.admin) (initial "" 0)) 0%nat);
    first [discriminate | vm_compute; reflexivity].
Defined.

(** ** Decoding *)

Lemma split_go_nonempty (sep : string) (k : nat) (cur s : string) :
  split_go sep k cur s ≠ [].
Proof.
  revert k cur. induction s as [|a s IH]; intros k cur; cbn [split_go]; [discriminate|].
  destruct k; [|apply IH]. destruct (String.prefix sep _); [discriminate|apply IH].
Qed.

(** [split] always yields a first piece. *)
Lemma split_first (s : string) : ∃ p rest, split "&id=" s = p :: rest.
Proof.
  unfold split. destruct (split_go "&id=" 0 "" s) eqn:E; [|eauto].
  now apply split_go_nonempty in E.
Qed.

Lemma split_no_marker (s : string) : occurs "&id=" s = false → split "&id=" s = [s].
Proof. intros H. unfold split. now rewrite split_go_free. Qed.

Section Decode.

Context (W : World) (opts : options).

Lemma resolveSecret_cases (d : option Z) (sec : Secret) :
  resolveSecret opts d = Some sec →
  (sec ∈ secrets opts ∧ Some (id sec) = d) ∨
  ((∀ x, x ∈ secrets opts → Some (id x) ≠ d) ∧ head (secrets opts) = Some sec).
Proof.
  unfold resolveSecret.
  destruct (List.find _ (secrets opts)) as [x|] eqn:E.
  - intros [= ->]. left. apply List.find_some in E as [Hin Hid].
    split; [now apply list_elem_of_In|]. now apply bool_decide_eq_true in Hid.
  - intros H. right. split; [|exact H].
    intros x Hx Hid. apply list_elem_of_In in Hx.
    pose proof (List.find_none _ _ E x Hx) as Hn. simpl in Hn.
    now rewrite bool_decide_eq_true_2 in Hn.
Qed.

Lemma resolveSecret_unknown (d : option Z) :
  (∀ x, x ∈ secrets opts → Some (id x) ≠ d) →
  resolveSecret opts d = head (secrets opts).
Proof.
  intros H. unfold resolveSecret.
  destruct (List.find _ (secrets opts)) as [x|] eqn:E; [|reflexivity].
  apply List.find_some in E as [Hin Hid].
  apply bool_decide_eq_true in Hid. apply list_elem_of_In in Hin.
  now destruct (H x Hin).
Qed.

Lemma resolveSecret_known (d : option Z) (x : Secret) :
  x ∈ secrets opts → Some (id x) = d →
  ∃ sec, resolveSecret opts d = Some sec ∧ sec ∈ secrets opts ∧ Some (id sec) = d.
Proof.
  intros Hx Hid. unfold resolveSecret.
  destruct (List.find _ (secrets opts)) as [y|] eqn:E.
  - exists y. apply List.find_some in E as [Hin Hy].
    split; [reflexivity|]. split; [now apply list_elem_of_In|].
    now apply bool_decide_eq_true in Hy.
  - apply list_elem_of_In in Hx.
    pose proof (List.find_none _ _ E x Hx) as Hn. simpl in Hn.
    now rewrite bool_decide_eq_true_2 in Hn.
Qed.

(** With an empty payload portion nothing happens at all. *)
Lemma getSessionData_empty (s : state) (rest : list string) :
  split "&id=" (sessionCookie s) = "" :: rest →
  getSessionData W opts s = Returns None s.
Proof.
  intros H. unfold getSessionData, bind, gets. now rewrite H.
Qed.

(** A failed decryption ends in the destroy path, not in a throw. *)
Lemma getSessionData_failure (s : state) (p : string) (rest : list string) :
  split "&id=" (sessionCookie s) = p :: rest →
  p ≠ "" →
  decryptWith W p (resolveSecret opts (decodeID W (rest !! 0%nat))) = None →
  getSessionData W opts s
  = Returns None (destroyed W opts (with_sessionCookie p s)).
Proof.
  intros Hsplit Hp Hdec.
  unfold getSessionData, bind at 1, gets at 1. rewrite Hsplit. cbn [List.hd].
  change ((p :: rest) !! 1%nat) with (rest !! 0%nat).
  destruct p as [|a p]; [congruence|]. cbn [String.length Nat.ltb Nat.leb].
  now rewrite Hdec.
Qed.

(** C8. Decode: the cookie is split on [&id=]; an empty payload portion
    yields no session and leaves the state as it was (no failure, no
    directive); otherwise the id is 1 when the cookie holds no [&id=]
    segment, the secret is the first of the ring carrying the id, or
    the head of the ring when no secret carries it, and the outcome of
    decoding is the outcome of [decrypt] on the payload portion under
    that secret: a rejection leads to the destroy path, a result becomes
    the session data. *)
Theorem decode_id_resolution (s : state) (p : string) (rest : list string) :
  split "&id=" (sessionCookie s) = p :: rest →
  let d := decodeID W (rest !! 0%nat) in
  let sec := resolveSecret opts d in
  (p = "" → getSessionData W opts s = Returns None s) ∧
  (occurs "&id=" (sessionCookie s) = false → p = sessionCookie s ∧ d = Some 1) ∧
  (∀ x, x ∈ secrets opts → Some (id x) = d →
     ∃ y, sec = Some y ∧ y ∈ secrets opts ∧ Some (id y) = d) ∧
  ((∀ x, x ∈ secrets opts → Some (id x) ≠ d) → sec = head (secrets opts)) ∧
  (p ≠ "" → decryptWith W p sec = None →
     getSessionData W opts s = Returns None (destroyed W opts (with_sessionCookie p s))) ∧
  (p ≠ "" → ∀ decrypted s0,
     head (secrets opts) = Some s0 → Some (id s0) = d →
     decryptWith W p sec = Some decrypted →
     ∃ s', getSessionData W opts s = Returns decrypted s' ∧
           sessionData s' = decrypted ∧ setCookie s' = setCookie s).
Proof.
  intros Hsplit d sec. split; [|split; [|split; [|split; [|split]]]].
  - intros ->. now apply (getSessionData_empty s rest).
  - intros Hfree. rewrite (split_no_marker _ Hfree) in Hsplit.
    injection Hsplit as <- <-. split; reflexivity.
  - intros x Hx Hid. now apply (resolveSecret_known d x).
  - apply resolveSecret_unknown.
  - intros Hp Hdec. now apply (getSessionData_failure s p rest).
  - intros Hp decrypted s0 H0 Hid Hdec.
    rewrite (getSessionData_decrypted W opts s p (rest !! 0%nat) rest decrypted s0);
      try done.
    cbv zeta. fold d. rewrite bool_decide_eq_true_2 by exact Hid.
    eexists. split; [f_equal; apply afterExpiryCheck_sessionData|].
    split; [apply afterExpiryCheck_sessionData|].
    now rewrite afterExpiryCheck_setCookie.
Qed.

End Decode.

Lemma decode_id_resolution_witness :
  let W := Scenario.world in
  let opts := Scenario.opts (RollBool false) in
  split "&id=" "ADMIN.NEW&id=2" = ["ADMIN.NEW"; "2"] ∧
  resolveSecret opts (decodeID W (Some "2")) = Some (mkSecret 2 "new") ∧
  ∃ s', getSessionData W opts (initial "ADMIN.NEW&id=2" 0)
          = Returns (Some Scenario.admin) s' ∧
        sessionData s' = Some Scenario.admin ∧ setCookie s' = None.
Proof.
  intros W opts.
  assert (Hsplit : split "&id=" (sessionCookie (initial "ADMIN.NEW&id=2" 0))
                   = ["ADMIN.NEW"; "2"]) by (vm_compute; reflexivity).
  destruct (decode_id_resolution W opts (initial "ADMIN.NEW&id=2" 0)
              "ADMIN.NEW" ["2"] Hsplit) as (_ & _ & _ & _ & _ & Hok).
  split; [exact Hsplit|]. split; [vm_compute; reflexivity|].
  apply (Hok ltac:(discriminate) (Some Scenario.admin) (mkSecret 2 "new"));
    vm_compute; reflexivity.
Defined.

(** ** Decode failures *)

Section Failure.

Context (W : World) (opts : options).

(** Without session data the rolling block changes nothing. *)
Lemma rollingRefresh_no_session (s : state) :
  sessionData s = None → rollingRefresh W opts s = Returns tt s.
Proof.
  intros H. unfold rollingRefresh.
  destruct (rolling_truthy (rolling opts)); [|reflexivity].
  unfold bind at 1, gets at 1. rewrite H.
  assert (Hr : (refresh W opts None ;;; ret tt) s = Returns tt s).
  { unfold refresh, bind, gets. now rewrite H. }
  destruct (rolling opts); exact Hr.
Qed.

Lemma initializeSession_failure (s : state) (p : string) (rest : list string) :
  split "&id=" (sessionCookie s) = p :: rest →
  p ≠ "" →
  decryptWith W p (resolveSecret opts (decodeID W (rest !! 0%nat))) = None →
  initializeSession W opts s = Returns tt (destroyed W opts (with_sessionCookie p s)).
Proof.
  intros Hsplit Hp Hdec. unfold initializeSession, bind.
  rewrite (getSessionData_failure W opts s p rest Hsplit Hp Hdec).
  now apply rollingRefresh_no_session.
Qed.

(** C3. A cookie with a non-empty payload portion whose decryption under
    the resolved secret fails does not make [initializeSession] throw:
    the session data is dropped, the [data] getter yields the empty
    object, and the directive stored is the destroy sentinel -- value
    ['0'], no max-age, an [expires] attribute earlier than the clock
    reading taken when it was built. *)
Theorem decode_failure_recovery (s : state) (p : string) (rest : list string) :
  split "&id=" (sessionCookie s) = p :: rest →
  p ≠ "" →
  decryptWith W p (resolveSecret opts (decodeID W (rest !! 0%nat))) = None →
  ∃ s', initializeSession W opts s = Returns tt s' ∧
        getSessionData W opts s = Returns None s' ∧
        sessionData s' = None ∧
        data s' = ∅ ∧
        ∃ e, setCookie s' =
               Some (serialize W (key opts) "0"
                       {| o_httpOnly := httpOnly (cookie opts);
                          o_path := path (cookie opts);
                          o_sameSite := sameSite (cookie opts);
                          o_secure := secure (cookie opts);
                          o_domain := domain (cookie opts);
                          o_maxAge := None;
                          o_expires := Some (Some e) |}) ∧
             e < clock W (ticks s).
Proof.
  intros Hsplit Hp Hdec.
  exists (destroyed W opts (with_sessionCookie p s)).
  split; [now apply (initializeSession_failure s p rest)|].
  split; [now apply (getSessionData_failure W opts s p rest)|].
  split; [reflexivity|]. split; [reflexivity|].
  exists (clock W (ticks s) - 360000000). split; [reflexivity|]. simpl. lia.
Qed.

(** C10. The sentinel ['0'] gets no treatment of its own when it comes
    back in: it holds no marker, so it is the whole payload portion and the
    id is 1, and it is handed to [decrypt] under the secret resolved for 1.
    When [decrypt] rejects it, [initializeSession] alone -- no operation of
    the handle is called -- leaves the [data] getter empty and a fresh
    destroy directive in place. *)
Theorem sentinel_is_decoded (t : nat) :
  decryptWith W "0" (resolveSecret opts (Some 1)) = None →
  split "&id=" "0" = ["0"] ∧
  decodeID W (split "&id=" "0" !! 1%nat) = Some 1 ∧
  setCookie (initial "0" t) = None ∧
  ∃ s', initializeSession W opts (initial "0" t) = Returns tt s' ∧
        sessionData s' = None ∧
        data s' = ∅ ∧
        setCookie s' = Some (destroyDirective W opts (clock W t)).
Proof.
  intros Hdec. split; [reflexivity|]. split; [reflexivity|]. split; [reflexivity|].
  exists (destroyed W opts (with_sessionCookie "0" (initial "0" t))).
  split; [|repeat split].
  now apply (initializeSession_failure (initial "0" t) "0" []).
Qed.

End Failure.

Lemma decode_failure_recovery_witness :
  ∃ s', initializeSession Scenario.world (Scenario.opts (RollBool true))
          (initial "garbage&id=2" 0) = Returns tt s' ∧
        data s' = ∅ ∧
        set_cookie s' = Some "kit.session=0; Expires=<past>".
Proof.
  destruct (decode_failure_recovery Scenario.world (Scenario.opts (RollBool true))
              (initial "garbage&id=2" 0) "garbage" ["2"])
    as (s' & Hinit & _ & _ & Hdata & e & Hcookie & _);
    [vm_compute; reflexivity | discriminate | vm_compute; reflexivity |].
  exists s'. split; [exact Hinit|]. split; [exact Hdata|].
  unfold set_cookie. rewrite Hcookie. reflexivity.
Defined.

Lemma sentinel_is_decoded_witness :
  ∃ s', initializeSession Scenario.world (Scenario.opts (RollBool false))
          (initial "0" 0) = Returns tt s' ∧
        data s' = ∅ ∧
        set_cookie s' = Some "kit.session=0; Expires=<past>".
Proof.
  destruct (sentinel_is_decoded Scenario.world (Scenario.opts (RollBool false)) 0%nat)
    as (_ & _ & _ & s' & Hinit & _ & Hdata & Hcookie);
    [vm_compute; reflexivity|].
  exists s'. split; [exact Hinit|]. split; [exact Hdata|].
  unfold set_cookie. rewrite Hcookie. reflexivity.
Defined.

(** ** Lifetimes *)

Section Lifetime.

Context (W : World) (opts : options).

Lemma remainingSeconds_eq (e : value) (s : state) :
  remainingSeconds W e s = Returns (remaining W e (clock W (ticks s))) (tick s).
Proof. reflexivity. Qed.

Lemma lifetimeFor_eq (sd : jsdata) (s : state) :
  lifetimeFor W opts sd s
  = Returns (lifetimeAt W opts sd (clock W (ticks s)))
            (if truthy (opt_expires sd) then tick s else s).
Proof.
  unfold lifetimeFor, lifetimeAt. now destruct (truthy (opt_expires sd)).
Qed.

Lemma maxAgeToDateOfExpiry_eq (m : num) (s : state) :
  maxAgeToDateOfExpiry W m s
  = Returns (Date_of_num (Num.add (Num.of_Z (clock W (ticks s)))
                                  (Num.mul m (Num.of_Z 1000))))
            (tick s).
Proof. reflexivity. Qed.

(** Re-encryption of present data that carries an [expires]. *)
Lemma reEncryptSession_ok (s : state) (o : obj) (s0 : Secret) (c : string) :
  sessionData s = Some o →
  truthy (get_expires o) = true →
  head (secrets opts) = Some s0 →
  encrypt W (Some o) (secret s0) = Some c →
  reEncryptSession W opts s
  = Returns tt
      (with_setCookie
         (liveDirective W opts (c +:+ "&id=" +:+ String_of_id (id s0))
            (remaining W (get_expires o) (clock W (ticks s))))
         (with_shouldSendToClient (with_sessionData (Some o) (tick s)))).
Proof.
  intros Hsd Ht H0 Hc.
  unfold reEncryptSession, bind at 1, gets at 1. rewrite Hsd.
  unfold bind at 1. rewrite lifetimeFor_eq.
  unfold lifetimeAt. cbn [opt_expires]. rewrite Ht.
  unfold bind at 1, modify at 1. unfold bind at 1, modify at 1.
  unfold bind at 1.
  rewrite (makeCookie_ok W opts _ s0 c); [reflexivity|exact H0|exact Hc].
Qed.

End Lifetime.

(** ** Rotation *)

Section Rotation.

Context (W : World) (opts : options).

Lemma afterExpiryCheck_ticks (s : state) :
  truthy (opt_expires (sessionData s)) = true →
  ticks (afterExpiryCheck W s) = S (ticks s).
Proof.
  intros H. unfold afterExpiryCheck. rewrite H. now destruct (Num.lt _ _).
Qed.

(** C2. Rotation: when the cookie decodes under a secret whose id is not
    the id of the head of the ring, into data that carries an [expires],
    [getSessionData] -- the first step of [initializeSession] -- stores
    the directive of the same data encrypted under the head of the ring and
    tagged with its id; the max-age of that directive is the remaining
    lifetime of the stored [expires] at the clock reading taken for it,
    not the configured default.  With rolling off this is the directive
    [initializeSession] ends with. *)
Theorem rotation_reencodes (s : state) (p : string) (rest : list string)
    (o : obj) (s0 sec : Secret) (c : string) :
  split "&id=" (sessionCookie s) = p :: rest →
  p ≠ "" →
  head (secrets opts) = Some s0 →
  resolveSecret opts (decodeID W (rest !! 0%nat)) = Some sec →
  id sec ≠ id s0 →
  decrypt W p (secret sec) = Some (Some o) →
  truthy (get_expires o) = true →
  encrypt W (Some o) (secret s0) = Some c →
  ∃ s', getSessionData W opts s = Returns (Some o) s' ∧
        sessionData s' = Some o ∧
        setCookie s' =
          Some (liveDirective W opts (c +:+ "&id=" +:+ String_of_id (id s0))
                  (remaining W (get_expires o) (clock W (S (ticks s))))) ∧
        (rolling_truthy (rolling opts) = false →
         initializeSession W opts s = Returns tt s').
Proof.
  intros Hsplit Hp H0 Hres Hid Hdec Ht Henc.
  assert (Hd : Some (id s0) ≠ decodeID W (rest !! 0%nat)).
  { intros E. apply resolveSecret_cases in Hres as [[_ Hs]|[_ Hs]]; congruence. }
  set (s1 := afterExpiryCheck W (with_sessionData (Some o) (with_sessionCookie p s))).
  assert (Hsd1 : sessionData s1 = Some o) by apply afterExpiryCheck_sessionData.
  assert (Htk : ticks s1 = S (ticks s)).
  { unfold s1. rewrite afterExpiryCheck_ticks; [reflexivity|exact Ht]. }
  assert (Hget : getSessionData W opts s =
            try_catch (reEncryptSession W opts ;;; gets sessionData)
                      (destroySession W opts ;;; ret None) s1).
  { rewrite (getSessionData_decrypted W opts s p (rest !! 0%nat) rest (Some o) s0);
      try done.
    - cbv zeta. now rewrite bool_decide_eq_false_2.
    - unfold decryptWith. now rewrite Hres. }
  eexists. split; [|split; [|split]].
  - rewrite Hget. unfold try_catch, bind.
    rewrite (reEncryptSession_ok W opts s1 o s0 c Hsd1 Ht H0 Henc). reflexivity.
  - reflexivity.
  - cbn [setCookie with_setCookie]. now rewrite Htk.
  - intros Hroll. unfold initializeSession, bind at 1. rewrite Hget.
    unfold try_catch, bind at 1.
    rewrite (reEncryptSession_ok W opts s1 o s0 c Hsd1 Ht H0 Henc).
    cbn [gets]. unfold rollingRefresh. now rewrite Hroll.
Qed.

End Rotation.

Lemma rotation_reencodes_witness :
  ∃ s', initializeSession Scenario.world (Scenario.opts (RollBool false))
          (initial "ADMIN.OLD&id=1" 0) = Returns tt s' ∧
        sessionData s' = Some Scenario.admin ∧
        setCookie s' =
          Some (liveDirective Scenario.world (Scenario.opts (RollBool false))
                  "ADMIN.NEW&id=2"
                  (Num.sub (Num.div (Num.of_Z (Scenario.t0 + 3600000)) (Num.of_Z 1000))
                           (Num.div (Num.of_Z Scenario.t0) (Num.of_Z 1000)))).
Proof.
  destruct (rotation_reencodes Scenario.world (Scenario.opts (RollBool false))
              (initial "ADMIN.OLD&id=1" 0) "ADMIN.OLD" ["1"] Scenario.admin
              (mkSecret 2 "new") (mkSecret 1 "old") "ADMIN.NEW")
    as (s' & _ & Hsd & Hcookie & Hinit);
    try (vm_compute; reflexivity); try discriminate.
  exists s'. split; [now apply Hinit|]. split; [exact Hsd|exact Hcookie].
Defined.

(** ** Properties kept by every step *)

Section Preserves.

Context (P : state → Prop).

Lemma preserves_ret {A} (a : A) : preserves P (ret a).
Proof. intros s H. exact H. Qed.

Lemma preserves_throw {A} : preserves P (@throw A).
Proof. intros s H. exact H. Qed.

Lemma preserves_gets {A} (f : state → A) : preserves P (gets f).
Proof. intros s H. exact H. Qed.

Lemma preserves_modify (f : state → state) :
  (∀ s, P s → P (f s)) → preserves P (modify f).
Proof. intros Hf s H. now apply Hf. Qed.

Lemma preserves_bind {A B} (m : M A) (k : A → M B) :
  preserves P m → (∀ a, preserves P (k a)) → preserves P (bind m k).
Proof.
  intros Hm Hk s H. unfold bind. specialize (Hm s H).
  destruct (m s) as [a s'|s']; [now apply Hk|exact Hm].
Qed.

Lemma preserves_try_catch {A} (m h : M A) :
  preserves P m → preserves P h → preserves P (try_catch m h).
Proof.
  intros Hm Hh s H. unfold try_catch. specialize (Hm s H).
  destruct (m s) as [a s'|s']; [exact Hm|now apply Hh].
Qed.

End Preserves.

Section Flagged.

Context (W : World) (opts : options).

Ltac step :=
  first
    [ apply preserves_ret | apply preserves_throw | apply preserves_gets
    | apply preserves_modify; intros ? H; exact H
    | apply preserves_bind; [|intros ?]
    | apply preserves_try_catch
    | match goal with
      | |- preserves _ (match ?x with _ => _ end) => destruct x
      | |- preserves _ (if ?x then _ else _) => destruct x
      end ].

Lemma flagged_now : preserves flagged (now W).
Proof. intros s H. exact H. Qed.

Lemma flagged_lifetimeFor (sd : jsdata) : preserves flagged (lifetimeFor W opts sd).
Proof.
  unfold lifetimeFor, remainingSeconds.
  repeat first [apply flagged_now | step].
Qed.

Lemma flagged_makeCookie (m : num) (b : bool) : preserves flagged (makeCookie W opts m b).
Proof.
  unfold makeCookie, encode, secret0.
  repeat first [apply flagged_now | step].
Qed.

Lemma flagged_destroySession : preserves flagged (destroySession W opts).
Proof.
  unfold destroySession.
  repeat first [apply flagged_makeCookie | step].
Qed.

Lemma flagged_reEncryptSession : preserves flagged (reEncryptSession W opts).
Proof.
  unfold reEncryptSession.
  repeat first [apply flagged_makeCookie | apply flagged_lifetimeFor | step].
Qed.

Lemma flagged_refresh (e : option num) : preserves flagged (refresh W opts e).
Proof.
  unfold refresh, daysToMaxage, maxAgeToDateOfExpiry.
  repeat first [apply flagged_makeCookie | apply flagged_now | step].
Qed.

Lemma flagged_set (d : jsdata) : preserves flagged (set W opts d).
Proof.
  unfold set, maxAgeToDateOfExpiry.
  repeat first [apply flagged_makeCookie | apply flagged_lifetimeFor
               | apply flagged_now | step].
Qed.

Lemma flagged_update (f : callback) : preserves flagged (update W opts f).
Proof.
  unfold update, maxAgeToDateOfExpiry.
  repeat first [apply flagged_makeCookie | apply flagged_lifetimeFor
               | apply flagged_now | step].
Qed.

Lemma flagged_rollingRefresh : preserves flagged (rollingRefresh W opts).
Proof.
  unfold rollingRefresh, remainingSeconds.
  repeat first [apply flagged_refresh | apply flagged_now | step].
Qed.

(** Once flagged, the [data] getter is empty. *)
Lemma data_flagged (s : state) : flagged s → data s = ∅.
Proof.
  unfold flagged, data. intros ->. now destruct (sessionData s).
Qed.

End Flagged.

(** ** Expiry *)

Section Expiry.

Context (W : World) (opts : options).

(** C4. A cookie that decodes into data whose stored [expires] lies before
    the clock reading of the expiry check: the check sets [invalidDate]
    and touches nothing else -- the decoded data stay in [sessionData] and
    no directive is stored by it; whatever [initializeSession] does next
    (rotation, rolling), the flag stays and the [data] getter yields the
    empty object; decoded under the current secret and with rolling off,
    [initializeSession] ends right there, with no directive. *)
Theorem expiry_degradation (s : state) (p : string) (rest : list string)
    (o : obj) (s0 : Secret) :
  split "&id=" (sessionCookie s) = p :: rest →
  p ≠ "" →
  head (secrets opts) = Some s0 →
  decryptWith W p (resolveSecret opts (decodeID W (rest !! 0%nat))) = Some (Some o) →
  truthy (get_expires o) = true →
  Num.lt (getTime (new_Date W (get_expires o))) (Num.of_Z (clock W (ticks s))) = true →
  let s1 := afterExpiryCheck W (with_sessionData (Some o) (with_sessionCookie p s)) in
  checkSessionExpiry W (with_sessionData (Some o) (with_sessionCookie p s))
    = Returns tt s1 ∧
  invalidDate (sessionState s1) = true ∧
  sessionData s1 = Some o ∧
  setCookie s1 = setCookie s ∧
  invalidDate (sessionState (final (initializeSession W opts s))) = true ∧
  data (final (initializeSession W opts s)) = ∅ ∧
  (Some (id s0) = decodeID W (rest !! 0%nat) →
   rolling_truthy (rolling opts) = false →
   initializeSession W opts s = Returns tt s1).
Proof.
  intros Hsplit Hp H0 Hdec Ht Hlt s1.
  assert (Hs1 : s1 = with_invalidDate
                       (tick (with_sessionData (Some o) (with_sessionCookie p s)))).
  { unfold s1, afterExpiryCheck. cbn [sessionData with_sessionData opt_expires].
    rewrite Ht. cbn [ticks with_sessionData with_sessionCookie]. now rewrite Hlt. }
  assert (Hflag : flagged s1) by now rewrite Hs1.
  assert (Hget : getSessionData W opts s =
            if bool_decide (Some (id s0) = decodeID W (rest !! 0%nat))
            then Returns (sessionData s1) s1
            else try_catch (reEncryptSession W opts ;;; gets sessionData)
                           (destroySession W opts ;;; ret None) s1).
  { now rewrite (getSessionData_decrypted W opts s p (rest !! 0%nat) rest (Some o) s0). }
  assert (Hfin : flagged (final (initializeSession W opts s))).
  { unfold initializeSession, bind at 1. rewrite Hget.
    destruct (bool_decide _).
    - now apply flagged_rollingRefresh.
    - pose proof (preserves_try_catch flagged
                    (reEncryptSession W opts ;;; gets sessionData)
                    (destroySession W opts ;;; ret None)) as Htail.
      specialize (Htail
        ltac:(apply preserves_bind;
                [apply flagged_reEncryptSession|intros ?; apply preserves_gets])
        ltac:(apply preserves_bind;
                [apply flagged_destroySession|intros ?; apply preserves_ret])
        s1 Hflag).
      destruct (try_catch _ _ s1) as [a s'|s']; [|exact Htail].
      now apply flagged_rollingRefresh. }
  split; [apply checkSessionExpiry_eq|].
  split; [exact Hflag|].
  split; [now rewrite Hs1|].
  split; [now rewrite Hs1|].
  split; [exact Hfin|].
  split; [now apply data_flagged|].
  intros Hid Hroll. unfold initializeSession, bind at 1. rewrite Hget.
  rewrite bool_decide_eq_true_2 by exact Hid.
  unfold rollingRefresh. now rewrite Hroll.
Qed.

End Expiry.

Lemma expiry_degradation_witness :
  ∃ s1, initializeSession Scenario.world (Scenario.opts (RollBool false))
          (initial "STALE.NEW&id=2" 0) = Returns tt s1 ∧
        invalidDate (sessionState s1) = true ∧
        sessionData s1 = Some Scenario.stale ∧
        data s1 = ∅ ∧
        set_cookie s1 = None.
Proof.
  destruct (expiry_degradation Scenario.world (Scenario.opts (RollBool false))
              (initial "STALE.NEW&id=2" 0) "STALE.NEW" ["2"] Scenario.stale
              (mkSecret 2 "new"))
    as (_ & Hflag & Hsd & Hcookie & _ & _ & Hinit);
    try (vm_compute; reflexivity); try discriminate.
  eexists. split; [apply Hinit; vm_compute; reflexivity|].
  split; [exact Hflag|]. split; [exact Hsd|].
  split; [now apply data_flagged|exact Hcookie].
Defined.

(** ** The mutating operations of the handle *)

Section Handle.

Context (W : World) (opts : options).

Lemma store_and_send (d : jsdata) (m : num) (s : state) :
  (let* e := maxAgeToDateOfExpiry W m in
   modify (with_sessionData (Some (<["expires" := VDate e]> (spread d)))) ;;;
   modify with_shouldSendToClient ;;;
   let* c := makeCookie W opts m false in
   modify (with_setCookie c) ;;;
   gets sessionData) s
  = sent W opts d m s.
Proof.
  unfold bind at 1. rewrite maxAgeToDateOfExpiry_eq.
  unfold bind at 1, modify at 1. unfold bind at 1, modify at 1.
  unfold bind at 1, sent.
  destruct (head (secrets opts)) as [s0|] eqn:H0.
  - destruct (encrypt W (Some (stamped W d m s)) (secret s0)) as [c|] eqn:Hc.
    + rewrite (makeCookie_ok W opts _ s0 c); [reflexivity|exact H0|exact Hc].
    + rewrite makeCookie_throws; [reflexivity|]. rewrite H0. exact Hc.
  - rewrite makeCookie_throws; [reflexivity|]. now rewrite H0.
Qed.

Lemma set_eq (d : jsdata) (s : state) :
  set W opts d s
  = sent W opts d (lifetimeAt W opts (sessionData s) (clock W (ticks s)))
           (afterLifetime (sessionData s) s).
Proof.
  unfold set, bind at 1, gets at 1. unfold bind at 1. rewrite lifetimeFor_eq.
  apply store_and_send.
Qed.

Lemma update_eq (f : callback) (s : state) :
  let sd' := cb_effect f <$> sessionData s in
  update W opts f s
  = sent W opts (cb_result f (sessionData s))
         (lifetimeAt W opts sd' (clock W (ticks s)))
         (afterLifetime sd' (with_sessionData sd' s)).
Proof.
  intros sd'. unfold update, bind at 1, gets at 1.
  unfold bind at 1, modify at 1. unfold bind at 1, gets at 1.
  cbn [sessionData with_sessionData]. fold sd'.
  unfold bind at 1. rewrite lifetimeFor_eq.
  apply store_and_send.
Qed.

Lemma stamped_expires (d : jsdata) (m : num) (s : state) :
  get_expires (stamped W d m s)
  = VDate (Date_of_num (Num.add (Num.of_Z (clock W (ticks s)))
                                (Num.mul m (Num.of_Z 1000)))).
Proof. unfold get_expires, stamped. now rewrite lookup_insert_eq. Qed.

(** So every object [set] and [update] encrypt carries an [expires]. *)
Lemma stamped_has_expires (d : jsdata) (m : num) (s : state) :
  truthy (get_expires (stamped W d m s)) = true.
Proof. now rewrite stamped_expires. Qed.



(** What [refresh] does when session data are present. *)
Lemma refresh_present (e : option num) (s : state) (o : obj) :
  sessionData s = Some o →
  let days := match e with
              | Some n => if Num.truthy n then n else expiresInDays opts
              | None => expiresInDays opts
              end in
  let today := clock W (ticks s) in
  let m := Num.sub (Num.div (getTime (addDays W today days)) (Num.of_Z 1000))
                   (Num.div (Num.of_Z today) (Num.of_Z 1000)) in
  let fresh := VDate (Date_of_num (Num.add (Num.of_Z (clock W (S (ticks s))))
                                           (Num.mul m (Num.of_Z 1000)))) in
  let s2 := with_sessionData (Some (<["expires" := fresh]> o)) (tick (tick s)) in
  refresh W opts e s
  = match head (secrets opts) with
    | Some s0 =>
        match encrypt W (Some (<["expires" := fresh]> o)) (secret s0) with
        | Some c =>
            Returns true
              (with_shouldSendToClient
                 (with_setCookie
                    (liveDirective W opts (c +:+ "&id=" +:+ String_of_id (id s0)) m)
                    s2))
        | None => Throws s2
        end
    | None => Throws s2
    end.
Proof.
  intros Hsd days today m fresh s2.
  unfold refresh, bind at 1, gets at 1. rewrite Hsd. fold days.
  unfold bind at 1, daysToMaxage, bind at 1, now at 1. cbn [ret]. fold today m.
  unfold bind at 1. rewrite maxAgeToDateOfExpiry_eq. cbn [ticks tick]. fold fresh.
  unfold bind at 1, modify at 1. unfold bind at 1. fold s2.
  destruct (head (secrets opts)) as [s0|] eqn:H0.
  - destruct (encrypt W (Some (<["expires" := fresh]> o)) (secret s0)) as [c|] eqn:Hc.
    + rewrite (makeCookie_ok W opts s2 s0 c); [reflexivity|exact H0|exact Hc].
    + rewrite makeCookie_throws; [reflexivity|]. rewrite H0. exact Hc.
  - rewrite makeCookie_throws; [reflexivity|]. now rewrite H0.
Qed.

Lemma refresh_absent (e : option num) (s : state) :
  sessionData s = None → refresh W opts e s = Returns false s.
Proof. intros H. unfold refresh, bind, gets. now rewrite H. Qed.

End Handle.

(** ** Operations on an expired session *)

Lemma stale_request_expired :
  invalidDate (sessionState stale_request) = true ∧
  sessionData stale_request = Some Scenario.stale ∧
  data stale_request = ∅ ∧
  set_cookie stale_request = None.
Proof. vm_compute. repeat split; reflexivity. Qed.

(** C5, evaluated where it fails: on the expired session [refresh()] does
    not return [false]; it returns [true], moves [expires] a full default
    lifetime ahead and schedules a cookie with the old payload and max-age
    604800, while the [data] getter keeps answering with the empty object. *)
Theorem refresh_on_expired_session :
  ∃ s2, refresh Scenario.world (Scenario.opts (RollBool false)) None stale_request
          = Returns true s2 ∧
        sessionData s2 =
          Some (<["expires" := VDate (Some (Scenario.t0 + 604800000))]> Scenario.stale) ∧
        set_cookie s2 = Some "kit.session=SEALED&id=2; Max-Age=604800" ∧
        data s2 = ∅.
Proof. eexists. vm_compute. repeat split; reflexivity. Qed.

(** C6, evaluated where it fails: on the expired session [set({user: 'bob'})]
    does not apply the default lifetime of 604800 seconds; the max-age is
    the remaining lifetime of the expired session, -1 second, the stored
    [expires] is the old one, and the [data] getter still answers with the
    empty object after the call. *)
Theorem set_on_expired_session :
  ∃ s2, set Scenario.world (Scenario.opts (RollBool false)) (Some Scenario.bob)
          stale_request
          = Returns (Some (<["expires" := VDate (Some (Scenario.t0 - 1000))]> Scenario.bob))
                    s2 ∧
        maxAge (cookie (Scenario.opts (RollBool false))) = Num.of_Z 604800 ∧
        set_cookie s2 = Some "kit.session=SEALED&id=2; Max-Age=-1" ∧
        data s2 = ∅.
Proof. eexists. vm_compute. repeat split; reflexivity. Qed.

(** The rolling block meets the same expired session: with rolling [true]
    the cookie of the expired session is sent back renewed for a full default
    lifetime, and the [data] getter of this request stays empty. *)
Lemma rolling_on_expired_session :
  let s := final (initializeSession Scenario.world (Scenario.opts (RollBool true))
                    (initial "STALE.NEW&id=2" 0)) in
  invalidDate (sessionState s) = true ∧
  data s = ∅ ∧
  set_cookie s = Some "kit.session=SEALED&id=2; Max-Age=604800".
Proof. vm_compute. repeat split; reflexivity. Qed.

(** On an empty session and on a live one [set] does choose as described:
    the default without session data, the remaining lifetime of a stored
    [expires] otherwise. *)
Lemma set_lifetime_rule (W : World) (opts : options) (s : state) (d : jsdata) :
  (sessionData s = None →
   set W opts d s = sent W opts d (maxAge (cookie opts)) s) ∧
  (∀ o, sessionData s = Some o → truthy (get_expires o) = true →
   set W opts d s
   = sent W opts d (remaining W (get_expires o) (clock W (ticks s))) (tick s)).
Proof.
  split.
  - intros H. rewrite set_eq, H. reflexivity.
  - intros o H Ht. rewrite set_eq, H. unfold lifetimeAt, afterLifetime.
    cbn [opt_expires]. now rewrite Ht.
Qed.

(** ** Rolling refresh *)

Section Rolling.

Context (W : World) (opts : options).

(** C7, amended. On a request with no session data the rolling block
    does nothing.  On a request with a non-expired session that carries an
    [expires]: rolling [false] does nothing; rolling [true] calls
    [refresh()]; a percentage [p] (a truthy number) reads the clock and
    calls [refresh()] exactly when the remaining lifetime in seconds,
    rounded to the nearest integer, is below [(p / 100) * maxAge], and
    does nothing more otherwise.  The remaining lifetime and the threshold
    are the doubles the code computes, [expires / 1000 - now / 1000] and
    [(p / 100) * maxAge], each operation rounded. *)
Theorem rolling_decision (s : state) :
  invalidDate (sessionState s) = false →
  (sessionData s = None → rollingRefresh W opts s = Returns tt s) ∧
  (∀ o, sessionData s = Some o → truthy (get_expires o) = true →
     match rolling opts with
     | RollBool false => rollingRefresh W opts s = Returns tt s
     | RollBool true => rollingRefresh W opts s = (refresh W opts None ;;; ret tt) s
     | RollNumber p =>
         if Num.truthy p then
           rollingRefresh W opts s =
             if Num.lt (Num.round (remaining W (get_expires o) (clock W (ticks s))))
                       (threshold opts p)
             then (refresh W opts None ;;; ret tt) (tick s)
             else Returns tt (tick s)
         else rollingRefresh W opts s = Returns tt s
     end).
Proof.
  intros _. split; [apply rollingRefresh_no_session|].
  intros o Hsd Ht. unfold rollingRefresh.
  destruct (rolling opts) as [[|]|p]; cbn [rolling_truthy]; cbv iota;
    try reflexivity.
  - destruct (Num.truthy p); cbv iota; [|reflexivity].
    unfold bind at 1, gets at 1. rewrite Hsd. cbn [opt_expires]. rewrite Ht.
    unfold bind at 1. rewrite remainingSeconds_eq. fold (threshold opts p).
    now destruct (Num.lt _ _).
Qed.

End Rolling.

(** C7 as stated fails: the remaining lifetime is strictly below the
    threshold, and yet the rolling block refreshes nothing -- it reads the
    clock and leaves session data and directive as they were -- because the
    comparison is made on the rounded value, 60480. *)
Lemma rolling_threshold_counterexample :
  let W := Scenario.world in
  let opts := Scenario.opts (RollNumber (Num.of_Z 10)) in
  invalidDate (sessionState nearly_request) = false ∧
  sessionData nearly_request = Some Scenario.nearly ∧
  Num.lt (remaining W (get_expires Scenario.nearly) (clock W (ticks nearly_request)))
         (threshold opts (Num.of_Z 10)) = true ∧
  rollingRefresh W opts nearly_request = Returns tt (tick nearly_request) ∧
  set_cookie (final (initializeSession W opts (initial "NEARLY.NEW&id=2" 0))) = None.
Proof. vm_compute. repeat split; reflexivity. Qed.

Lemma rolling_decision_witness :
  let W := Scenario.world in
  let opts := Scenario.opts (RollNumber (Num.of_Z 10)) in
  rollingRefresh W opts nearly_request =
    if Num.lt (Num.round (remaining W (get_expires Scenario.nearly)
                            (clock W (ticks nearly_request))))
              (threshold opts (Num.of_Z 10))
    then (refresh W opts None ;;; ret tt) (tick nearly_request)
    else Returns tt (tick nearly_request).
Proof.
  intros W opts.
  destruct (rolling_decision W opts nearly_request) as [_ H];
    [vm_compute; reflexivity|].
  exact (H Scenario.nearly ltac:(vm_compute; reflexivity) ltac:(vm_compute; reflexivity)).
Defined.

(** * Further properties of the code *)

(** ** How the calls of the handle compose *)

Section Compose.

Context (W : World) (opts : options).

Lemma sent_sessionData (d : jsdata) (m : num) (s : state) :
  sessionData (final (sent W opts d m s)) = Some (stamped W d m s).
Proof.
  unfold sent. destruct (head (secrets opts)) as [s0|]; [|reflexivity].
  now destruct (encrypt W _ _).
Qed.

Lemma sent_flags (d : jsdata) (m : num) (s : state) :
  invalidDate (sessionState (final (sent W opts d m s))) = invalidDate (sessionState s) ∧
  shouldDestroy (sessionState (final (sent W opts d m s))) = shouldDestroy (sessionState s).
Proof.
  unfold sent. destruct (head (secrets opts)) as [s0|]; [|split; reflexivity].
  destruct (encrypt W _ _); split; reflexivity.
Qed.

Lemma afterLifetime_flags (sd : jsdata) (s : state) :
  sessionState (afterLifetime sd s) = sessionState s.
Proof. unfold afterLifetime. now destruct (truthy _). Qed.

(** X3. [destroy] never throws, not even on an empty ring; called
    twice it leaves the state of one call, but for the clock: no session
    data, an empty [data], and the sentinel directive dated from the latest
    reading -- the same directive when the clock has not moved. *)
Theorem destroy_twice (s : state) :
  ∃ s1 s2,
    destroy W opts s = Returns true s1 ∧
    destroy W opts s1 = Returns true s2 ∧
    sessionData s1 = None ∧ sessionData s2 = None ∧
    data s1 = ∅ ∧ data s2 = ∅ ∧
    setCookie s1 = Some (destroyDirective W opts (clock W (ticks s))) ∧
    setCookie s2 = Some (destroyDirective W opts (clock W (S (ticks s)))) ∧
    sessionState s2 = sessionState s1 ∧
    (clock W (S (ticks s)) = clock W (ticks s) → setCookie s2 = setCookie s1).
Proof.
  exists (destroyed W opts s), (destroyed W opts (destroyed W opts s)).
  repeat split. intros E. cbn. now rewrite E.
Qed.

(** X4. [set] after [destroy] starts a session afresh: the max-age is the
    configured default, and, unless the request's cookie had been found
    expired, the [data] getter shows the new object. *)
Theorem set_after_destroy (s : state) (d : jsdata) :
  let s1 := final (destroy W opts s) in
  set W opts d s1 = sent W opts d (maxAge (cookie opts)) s1 ∧
  (invalidDate (sessionState s) = false →
   shouldDestroy (sessionState s) = false →
   data (final (set W opts d s1)) = stamped W d (maxAge (cookie opts)) s1).
Proof.
  intros s1.
  assert (Hset : set W opts d s1 = sent W opts d (maxAge (cookie opts)) s1).
  { rewrite set_eq. reflexivity. }
  split; [exact Hset|].
  intros Hi Hd. rewrite Hset. unfold data. rewrite sent_sessionData.
  destruct (sent_flags d (maxAge (cookie opts)) s1) as [-> ->].
  cbn. now rewrite Hi, Hd.
Qed.

(** X5. What [set] stores is what the [data] getter then shows, when the
    request's cookie had not been found expired: every key of the supplied
    data but [expires], and under [expires] a Date; this holds also when
    [set] throws because encryption failed. *)
Theorem set_then_data (s : state) (d : jsdata) :
  invalidDate (sessionState s) = false →
  shouldDestroy (sessionState s) = false →
  let s' := final (set W opts d s) in
  (∀ k, k ≠ "expires" → data s' !! k = spread d !! k) ∧
  (∃ e, data s' !! "expires" = Some (VDate e)) ∧
  (∀ v s2, set W opts d s = Returns v s2 → v = Some (data s2)).
Proof.
  intros Hi Hd s'.
  assert (Hdata : data s' = stamped W d (lifetimeAt W opts (sessionData s) (clock W (ticks s)))
                              (afterLifetime (sessionData s) s)).
  { unfold s', data. rewrite set_eq, sent_sessionData.
    destruct (sent_flags d (lifetimeAt W opts (sessionData s) (clock W (ticks s)))
                (afterLifetime (sessionData s) s)) as [-> ->].
    now rewrite afterLifetime_flags, Hi, Hd. }
  split; [|split].
  - intros k Hk. rewrite Hdata. unfold stamped. now rewrite lookup_insert_ne.
  - rewrite Hdata. unfold stamped. rewrite lookup_insert_eq. eauto.
  - intros v s2 Hret. unfold s' in Hdata. rewrite Hret in Hdata. cbn [final] in Hdata.
    rewrite Hdata. rewrite set_eq in Hret. unfold sent in Hret.
    destruct (head (secrets opts)) as [s0|]; [|discriminate].
    destruct (encrypt W _ _) as [c|]; [|discriminate].
    now injection Hret as <- _.
Qed.

(** X6. [update] with a transform that leaves the object it is handed
    untouched is [set] of what the transform returns. *)
Theorem update_is_set (s : state) (f : callback) :
  (∀ o, cb_effect f o = o) →
  update W opts f s = set W opts (cb_result f (sessionData s)) s.
Proof.
  intros Hid. rewrite (update_eq W opts f s), set_eq. cbv zeta.
  assert (E : cb_effect f <$> sessionData s = sessionData s).
  { destruct (sessionData s) as [o|]; [cbn; now rewrite Hid|reflexivity]. }
  rewrite E. now destruct s.
Qed.

(** X7. [refresh] on present session data changes nothing of the payload
    but [expires], which becomes a Date; it sets neither [invalidDate] nor
    the session cookie string. *)
Theorem refresh_changes_only_expires (s : state) (e : option num) (o : obj) :
  sessionData s = Some o →
  let s' := final (refresh W opts e s) in
  ∃ o', sessionData s' = Some o' ∧
        (∀ k, k ≠ "expires" → o' !! k = o !! k) ∧
        (∃ x, o' !! "expires" = Some (VDate x)) ∧
        invalidDate (sessionState s') = invalidDate (sessionState s) ∧
        sessionCookie s' = sessionCookie s.
Proof.
  intros Hsd s'. unfold s'. rewrite (refresh_present W opts e s o Hsd). cbv zeta.
  eexists. split.
  - destruct (head (secrets opts)) as [s0|]; [|reflexivity].
    destruct (encrypt W _ _); reflexivity.
  - split; [intros k Hk; now rewrite lookup_insert_ne|].
    split; [rewrite lookup_insert_eq; eauto|].
    destruct (head (secrets opts)) as [s0|]; [|split; reflexivity].
    destruct (encrypt W _ _); split; reflexivity.
Qed.

(** X8. When encryption fails, [set], [update] and [refresh] throw after
    the session data have been replaced: the directive stays what it was
    before the call, the session data are already the new ones. *)
Theorem failed_call_keeps_directive (s : state) (d : jsdata) (f : callback)
    (e : option num) :
  (∀ s', set W opts d s = Throws s' →
     setCookie s' = setCookie s ∧ ∃ o, sessionData s' = Some o ∧
       ∀ k, k ≠ "expires" → o !! k = spread d !! k) ∧
  (∀ s', update W opts f s = Throws s' →
     setCookie s' = setCookie s ∧ ∃ o, sessionData s' = Some o ∧
       ∀ k, k ≠ "expires" → o !! k = spread (cb_result f (sessionData s)) !! k) ∧
  (∀ s', refresh W opts e s = Throws s' →
     setCookie s' = setCookie s ∧ ∃ o x, sessionData s' = Some o ∧
       o !! "expires" = Some (VDate x)).
Proof.
  assert (Hsent : ∀ d' m s0 s',
            sent W opts d' m s0 = Throws s' →
            setCookie s' = setCookie s0 ∧ ∃ o, sessionData s' = Some o ∧
              ∀ k, k ≠ "expires" → o !! k = spread d' !! k).
  { intros d' m s0 s' H. unfold sent in H.
    assert (E : s' = stored W d' m s0).
    { destruct (head (secrets opts)); [destruct (encrypt W _ _)|]; congruence. }
    subst s'. split; [reflexivity|]. eexists. split; [reflexivity|].
    intros k Hk. unfold stamped. now rewrite lookup_insert_ne. }
  split; [|split].
  - intros s' H. rewrite set_eq in H. apply Hsent in H as [Hc Ho].
    split; [|exact Ho]. rewrite Hc. unfold afterLifetime. now destruct (truthy _).
  - intros s' H. rewrite (update_eq W opts f s) in H. cbv zeta in H.
    apply Hsent in H as [Hc Ho].
    split; [|exact Ho]. rewrite Hc. unfold afterLifetime. now destruct (truthy _).
  - intros s' H. destruct (sessionData s) as [o|] eqn:Hsd.
    + rewrite (refresh_present W opts e s o Hsd) in H. cbv zeta in H.
      assert (E : ∃ x, s' = with_sessionData (Some (<["expires" := VDate x]> o))
                              (tick (tick s))).
      { destruct (head (secrets opts)); [destruct (encrypt W _ _)|];
          try discriminate; injection H as <-; eauto. }
      destruct E as [x ->]. split; [reflexivity|].
      eexists _, x. split; [reflexivity|]. now rewrite lookup_insert_eq.
    + rewrite (refresh_absent W opts e s Hsd) in H. discriminate.
Qed.

End Compose.

(** ** What a whole request keeps *)

Section Kept.

Context (W : World) (opts : options) (P : state → Prop).

Hypothesis P_tick : ∀ s, P s → P (tick s).
Hypothesis P_sessionCookie : ∀ c s, P s → P (with_sessionCookie c s).
Hypothesis P_sessionData : ∀ d s, P s → P (with_sessionData d s).
Hypothesis P_setCookie : ∀ c s, P s → P (with_setCookie c s).
Hypothesis P_shouldSendToClient : ∀ s, P s → P (with_shouldSendToClient s).
Hypothesis P_invalidDate : ∀ s, P s → P (with_invalidDate s).

Lemma kept_now : preserves P (now W).
Proof. intros s H. now apply P_tick. Qed.

Ltac keep :=
  first
    [ apply preserves_ret | apply preserves_throw | apply preserves_gets
    | apply kept_now
    | apply preserves_modify;
        first [ apply P_sessionCookie | apply P_sessionData | apply P_setCookie
              | apply P_shouldSendToClient | apply P_invalidDate ]
    | apply preserves_bind; [|intros ?]
    | apply preserves_try_catch
    | match goal with
      | |- preserves _ (match ?x with _ => _ end) => destruct x
      | |- preserves _ (if ?x then _ else _) => destruct x
      end ].

Lemma kept_lifetimeFor (sd : jsdata) : preserves P (lifetimeFor W opts sd).
Proof. unfold lifetimeFor, remainingSeconds. repeat keep. Qed.

Lemma kept_makeCookie (m : num) (b : bool) : preserves P (makeCookie W opts m b).
Proof. unfold makeCookie, encode, secret0. repeat keep. Qed.

Lemma kept_destroySession : preserves P (destroySession W opts).
Proof. unfold destroySession. repeat first [apply kept_makeCookie | keep]. Qed.

Lemma kept_reEncryptSession : preserves P (reEncryptSession W opts).
Proof.
  unfold reEncryptSession.
  repeat first [apply kept_makeCookie | apply kept_lifetimeFor | keep].
Qed.

Lemma kept_checkSessionExpiry : preserves P (checkSessionExpiry W).
Proof. unfold checkSessionExpiry. repeat keep. Qed.

Lemma kept_refresh (e : option num) : preserves P (refresh W opts e).
Proof.
  unfold refresh, daysToMaxage, maxAgeToDateOfExpiry.
  repeat first [apply kept_makeCookie | keep].
Qed.

Lemma kept_set (d : jsdata) : preserves P (set W opts d).
Proof.
  unfold set, maxAgeToDateOfExpiry.
  repeat first [apply kept_makeCookie | apply kept_lifetimeFor | keep].
Qed.

Lemma kept_update (f : callback) : preserves P (update W opts f).
Proof.
  unfold update, maxAgeToDateOfExpiry.
  repeat first [apply kept_makeCookie | apply kept_lifetimeFor | keep].
Qed.

Lemma kept_destroy : preserves P (destroy W opts).
Proof. unfold destroy. repeat first [apply kept_destroySession | keep]. Qed.

Lemma kept_rollingRefresh : preserves P (rollingRefresh W opts).
Proof.
  unfold rollingRefresh, remainingSeconds.
  repeat first [apply kept_refresh | keep].
Qed.

Lemma kept_getSessionData : preserves P (getSessionData W opts).
Proof.
  unfold getSessionData, secret0.
  repeat first [apply kept_destroySession | apply kept_reEncryptSession
               | apply kept_checkSessionExpiry | keep].
Qed.

Lemma kept_initializeSession : preserves P (initializeSession W opts).
Proof.
  unfold initializeSession.
  repeat first [apply kept_getSessionData | apply kept_rollingRefresh | keep].
Qed.

Lemma kept_perform (o : operation) : preserves P (perform W opts o).
Proof.
  destruct o; unfold perform;
    repeat first [apply kept_set | apply kept_update | apply kept_refresh
                 | apply kept_destroy | keep].
Qed.

Lemma kept_after_calls (l : list operation) (s : state) :
  P s → P (after_calls W opts l s).
Proof.
  revert s. induction l as [|o l IH]; intros s H; [exact H|].
  cbn [after_calls fold_left]. apply IH. now apply kept_perform.
Qed.

End Kept.

Section Request.

Context (W : World) (opts : options).

(** X9. Once the cookie of a request has been found expired, no series of
    calls of [set], [update], [refresh] and [destroy] -- whether they return
    or throw -- makes the [data] getter of that request show anything: the
    flag stays set and [data] stays the empty object. *)
Theorem expired_request_stays_empty (s : state) (l : list operation) :
  invalidDate (sessionState s) = true →
  invalidDate (sessionState (after_calls W opts l s)) = true ∧
  data (after_calls W opts l s) = ∅.
Proof.
  intros H.
  assert (Hf : flagged (after_calls W opts l s)).
  { apply kept_after_calls; first [exact H | intros; assumption | intros; reflexivity]. }
  split; [exact Hf|now apply data_flagged].
Qed.

(** X10. [shouldReEncrypt] and [shouldDestroy] are declared and never
    assigned: they are false after [initializeSession] and after any series
    of calls on the handle, whatever the cookie.  So the [data] getter hides
    present session data in one case only, [invalidDate]. *)
Theorem flags_never_raised (c : string) (t : nat) (l : list operation) :
  let s := after_calls W opts l (final (initializeSession W opts (initial c t))) in
  shouldReEncrypt (sessionState s) = false ∧
  shouldDestroy (sessionState s) = false ∧
  data s = if invalidDate (sessionState s) then ∅ else default ∅ (sessionData s).
Proof.
  intros s.
  assert (Hu : unraised s).
  { apply kept_after_calls; try (intros; assumption).
    apply kept_initializeSession; try (intros; assumption).
    split; reflexivity. }
  destruct Hu as [Hr Hd]. split; [exact Hr|]. split; [exact Hd|].
  unfold data. rewrite Hd. destruct (sessionData s); now destruct (invalidDate _).
Qed.

End Request.

(** ** More on decoding and rotation *)

Section Reissue.

Context (W : World) (opts : options).

Lemma reEncryptSession_throws (s : state) (o : obj) (s0 : Secret) :
  sessionData s = Some o →
  head (secrets opts) = Some s0 →
  encrypt W (Some o) (secret s0) = None →
  reEncryptSession W opts s
  = Throws (with_shouldSendToClient
              (with_sessionData (Some o) (afterLifetime (Some o) s))).
Proof.
  intros Hsd H0 Hc.
  unfold reEncryptSession, bind at 1, gets at 1. rewrite Hsd.
  unfold bind at 1. rewrite lifetimeFor_eq. fold (afterLifetime (Some o) s).
  unfold bind at 1, modify at 1. unfold bind at 1, modify at 1.
  unfold bind at 1.
  rewrite makeCookie_throws; [reflexivity|]. rewrite H0. exact Hc.
Qed.

(** Decoding with a decode id that is not the id of the head of the ring:
    the data are re-issued under the head of the ring. *)
Lemma getSessionData_reissue (s : state) (p : string) (rest : list string)
    (o : obj) (s0 : Secret) (c : string) :
  split "&id=" (sessionCookie s) = p :: rest →
  p ≠ "" →
  head (secrets opts) = Some s0 →
  Some (id s0) ≠ decodeID W (rest !! 0%nat) →
  decryptWith W p (resolveSecret opts (decodeID W (rest !! 0%nat))) = Some (Some o) →
  truthy (get_expires o) = true →
  encrypt W (Some o) (secret s0) = Some c →
  getSessionData W opts s
  = Returns (Some o)
      (with_setCookie
         (liveDirective W opts (c +:+ "&id=" +:+ String_of_id (id s0))
            (remaining W (get_expires o) (clock W (S (ticks s)))))
         (with_shouldSendToClient
            (with_sessionData (Some o)
               (tick (afterExpiryCheck W
                        (with_sessionData (Some o) (with_sessionCookie p s))))))).
Proof.
  intros Hsplit Hp H0 Hd Hdec Ht Henc.
  set (s1 := afterExpiryCheck W (with_sessionData (Some o) (with_sessionCookie p s))).
  assert (Hsd1 : sessionData s1 = Some o) by apply afterExpiryCheck_sessionData.
  assert (Htk : ticks s1 = S (ticks s)).
  { unfold s1. rewrite afterExpiryCheck_ticks; [reflexivity|exact Ht]. }
  rewrite (getSessionData_decrypted W opts s p (rest !! 0%nat) rest (Some o) s0);
    try done.
  cbv zeta. rewrite bool_decide_eq_false_2 by exact Hd. fold s1.
  unfold try_catch, bind.
  rewrite (reEncryptSession_ok W opts s1 o s0 c Hsd1 Ht H0 Henc).
  cbn [gets sessionData with_setCookie with_shouldSendToClient with_sessionData].
  now rewrite Htk.
Qed.

(** X11. A cookie tagged with an id that no secret of the ring carries --
    or with something [Number] does not read as an integer -- is decrypted
    under the head of the ring, and, when that succeeds, is issued again
    tagged with the id of the head: the same secret, a new tag. *)
Theorem unknown_id_reissued (s : state) (p : string) (rest : list string)
    (o : obj) (s0 : Secret) (c : string) :
  split "&id=" (sessionCookie s) = p :: rest →
  p ≠ "" →
  head (secrets opts) = Some s0 →
  (∀ x, x ∈ secrets opts → Some (id x) ≠ decodeID W (rest !! 0%nat)) →
  decrypt W p (secret s0) = Some (Some o) →
  truthy (get_expires o) = true →
  encrypt W (Some o) (secret s0) = Some c →
  ∃ s', getSessionData W opts s = Returns (Some o) s' ∧
        sessionData s' = Some o ∧
        setCookie s' =
          Some (liveDirective W opts (c +:+ "&id=" +:+ String_of_id (id s0))
                  (remaining W (get_expires o) (clock W (S (ticks s))))).
Proof.
  intros Hsplit Hp H0 Hun Hdec Ht Henc.
  assert (Hin : s0 ∈ secrets opts).
  { destruct (secrets opts) as [|x l]; [discriminate|].
    injection H0 as ->. apply list_elem_of_here. }
  eexists. split.
  - apply (getSessionData_reissue s p rest o s0 c); try done.
    + now apply Hun.
    + rewrite (resolveSecret_unknown opts _ Hun), H0. exact Hdec.
  - split; reflexivity.
Qed.

(** X12. When the re-encryption of rotation fails, the failure is caught
    like a failed decryption: [getSessionData] returns, the session that had
    just been decoded is dropped, and the directive is the destroy
    sentinel. *)
Theorem rotation_failure_destroys (s : state) (p : string) (rest : list string)
    (o : obj) (s0 : Secret) :
  split "&id=" (sessionCookie s) = p :: rest →
  p ≠ "" →
  head (secrets opts) = Some s0 →
  Some (id s0) ≠ decodeID W (rest !! 0%nat) →
  decryptWith W p (resolveSecret opts (decodeID W (rest !! 0%nat))) = Some (Some o) →
  encrypt W (Some o) (secret s0) = None →
  ∃ s' n, getSessionData W opts s = Returns None s' ∧
          initializeSession W opts s = Returns tt s' ∧
          sessionData s' = None ∧
          data s' = ∅ ∧
          setCookie s' = Some (destroyDirective W opts n).
Proof.
  intros Hsplit Hp H0 Hd Hdec Henc.
  set (s1 := afterExpiryCheck W (with_sessionData (Some o) (with_sessionCookie p s))).
  assert (Hsd1 : sessionData s1 = Some o) by apply afterExpiryCheck_sessionData.
  assert (Hget : getSessionData W opts s =
            Returns None
              (destroyed W opts
                 (with_shouldSendToClient
                    (with_sessionData (Some o) (afterLifetime (Some o) s1))))).
  { rewrite (getSessionData_decrypted W opts s p (rest !! 0%nat) rest (Some o) s0);
      try done.
    cbv zeta. rewrite bool_decide_eq_false_2 by exact Hd. fold s1.
    unfold try_catch, bind at 1.
    now rewrite (reEncryptSession_throws s1 o s0 Hsd1 H0 Henc). }
  eexists _, _. split; [exact Hget|].
  split; [|repeat split].
  unfold initializeSession, bind. rewrite Hget.
  now apply rollingRefresh_no_session.
Qed.

(** X13. Only the first two pieces of the cookie count: two cookies with the
    same non-empty payload portion and the same piece after the first
    [&id=] are decoded alike, whatever follows a second [&id=]. *)
Theorem trailing_segments_ignored (c1 c2 p : string) (r1 r2 : list string) (t : nat) :
  split "&id=" c1 = p :: r1 →
  split "&id=" c2 = p :: r2 →
  r1 !! 0%nat = r2 !! 0%nat →
  p ≠ "" →
  getSessionData W opts (initial c1 t) = getSessionData W opts (initial c2 t).
Proof.
  intros H1 H2 Hr Hp.
  unfold getSessionData, bind, gets, modify.
  cbn [sessionCookie initial]. rewrite H1, H2. cbn [List.hd].
  change ((p :: r1) !! 1%nat) with (r1 !! 0%nat).
  change ((p :: r2) !! 1%nat) with (r2 !! 0%nat). rewrite Hr.
  destruct p as [|a p]; [congruence|]. reflexivity.
Qed.

(** A value tagged with the id of the head of the ring and free of stray
    markers is decoded under the head of the ring, with no directive. *)
Lemma getSessionData_tagged (s0 : Secret) (c : string) (d : jsdata) (t : nat) :
  head (secrets opts) = Some s0 →
  c ≠ "" →
  occurs "&id=" c = false →
  Number W (String_of_id (id s0)) = Some (id s0) →
  decrypt W c (secret s0) = Some d →
  ∃ s', getSessionData W opts (initial (c +:+ "&id=" +:+ String_of_id (id s0)) t)
          = Returns d s' ∧
        sessionData s' = d ∧ setCookie s' = None.
Proof.
  intros H0 Hne Hfree Hnum Hdec.
  set (v := c +:+ "&id=" +:+ String_of_id (id s0)).
  assert (Hsplit : split "&id=" v = [c; String_of_id (id s0)]).
  { apply split_encoded; [exact Hfree|]. apply lacks_occurs, String_of_id_lacks. }
  assert (Hid : decodeID W (Some (String_of_id (id s0))) = Some (id s0)).
  { unfold decodeID, truthy_string. now rewrite String_of_id_nonempty. }
  rewrite (getSessionData_decrypted W opts (initial v t) c (Some (String_of_id (id s0)))
             [String_of_id (id s0)] d s0); try done.
  - cbv zeta. rewrite Hid, bool_decide_eq_true_2 by reflexivity.
    eexists. split; [f_equal; apply afterExpiryCheck_sessionData|].
    split; [apply afterExpiryCheck_sessionData|].
    now rewrite afterExpiryCheck_setCookie.
  - rewrite Hid, (resolveSecret_head _ _ H0). exact Hdec.
Qed.

(** X14. What [set] sends comes back: the value of the directive of a
    successful [set] is the ciphertext of the stored object tagged with the
    id of the head of the ring, and a next request that presents this value
    decodes the very object [set] returned, with no rotation and no
    directive -- given a cipher that inverts its own ciphertext, which is
    non-empty and free of the marker, and a [Number] that reads the id. *)
Theorem set_round_trip (s : state) (d v : jsdata) (s' : state) (s0 : Secret)
    (c : string) (t : nat) :
  head (secrets opts) = Some s0 →
  set W opts d s = Returns v s' →
  encrypt W v (secret s0) = Some c →
  decrypt W c (secret s0) = Some v →
  c ≠ "" →
  occurs "&id=" c = false →
  Number W (String_of_id (id s0)) = Some (id s0) →
  let value := c +:+ "&id=" +:+ String_of_id (id s0) in
  (∃ m, setCookie s' = Some (liveDirective W opts value m)) ∧
  ∃ s2, getSessionData W opts (initial value t) = Returns v s2 ∧
        sessionData s2 = v ∧ setCookie s2 = None.
Proof.
  intros H0 Hset Henc Hdec Hne Hfree Hnum value. split.
  - rewrite set_eq in Hset. unfold sent in Hset. rewrite H0 in Hset.
    destruct (encrypt W (Some (stamped W d _ _)) (secret s0)) as [c'|] eqn:Hc';
      [|discriminate].
    injection Hset as <- <-. rewrite Hc' in Henc. injection Henc as ->.
    eexists. reflexivity.
  - now apply getSessionData_tagged.
Qed.

(** X15. A rotated cookie is not rotated again: the value issued by
    rotation, presented by a next request, decodes under the head of the
    ring into the same data, with no directive. *)
Theorem rotation_round_trip (s : state) (p : string) (rest : list string)
    (o : obj) (s0 : Secret) (c : string) (t : nat) :
  split "&id=" (sessionCookie s) = p :: rest →
  p ≠ "" →
  head (secrets opts) = Some s0 →
  Some (id s0) ≠ decodeID W (rest !! 0%nat) →
  decryptWith W p (resolveSecret opts (decodeID W (rest !! 0%nat))) = Some (Some o) →
  truthy (get_expires o) = true →
  encrypt W (Some o) (secret s0) = Some c →
  decrypt W c (secret s0) = Some (Some o) →
  c ≠ "" →
  occurs "&id=" c = false →
  Number W (String_of_id (id s0)) = Some (id s0) →
  let value := c +:+ "&id=" +:+ String_of_id (id s0) in
  (∃ s' m, getSessionData W opts s = Returns (Some o) s' ∧
           setCookie s' = Some (liveDirective W opts value m)) ∧
  ∃ s2, getSessionData W opts (initial value t) = Returns (Some o) s2 ∧
        sessionData s2 = Some o ∧ setCookie s2 = None.
Proof.
  intros Hsplit Hp H0 Hd Hdec Ht Henc Hinv Hne Hfree Hnum value. split.
  - eexists _, _. split.
    + now apply (getSessionData_reissue s p rest o s0 c).
    + reflexivity.
  - now apply getSessionData_tagged.
Qed.

(** X16. Rolling has the last word over rotation: with rolling [true], a
    session decoded under a retired secret ends [initializeSession] with the
    directive of [refresh()] -- the payload with a fresh [expires], and the
    max-age of the configured number of days -- not with the directive of
    rotation and its remaining lifetime. *)
Theorem rolling_overrides_rotation (s : state) (p : string) (rest : list string)
    (o : obj) (s0 : Secret) (c1 c2 : string) :
  split "&id=" (sessionCookie s) = p :: rest →
  p ≠ "" →
  head (secrets opts) = Some s0 →
  Some (id s0) ≠ decodeID W (rest !! 0%nat) →
  decryptWith W p (resolveSecret opts (decodeID W (rest !! 0%nat))) = Some (Some o) →
  truthy (get_expires o) = true →
  rolling opts = RollBool true →
  let today := clock W (S (S (ticks s))) in
  let m := Num.sub (Num.div (getTime (addDays W today (expiresInDays opts))) (Num.of_Z 1000))
                   (Num.div (Num.of_Z today) (Num.of_Z 1000)) in
  let fresh := VDate (Date_of_num (Num.add (Num.of_Z (clock W (S (S (S (ticks s))))))
                                           (Num.mul m (Num.of_Z 1000)))) in
  encrypt W (Some o) (secret s0) = Some c1 →
  encrypt W (Some (<["expires" := fresh]> o)) (secret s0) = Some c2 →
  ∃ s', initializeSession W opts s = Returns tt s' ∧
        sessionData s' = Some (<["expires" := fresh]> o) ∧
        setCookie s' =
          Some (liveDirective W opts (c2 +:+ "&id=" +:+ String_of_id (id s0)) m).
Proof.
  intros Hsplit Hp H0 Hd Hdec Ht Hroll today m fresh Hc1 Hc2.
  unfold initializeSession, bind at 1.
  rewrite (getSessionData_reissue s p rest o s0 c1); try done.
  unfold rollingRefresh. rewrite Hroll. cbn [rolling_truthy].
  unfold bind at 1, gets at 1. unfold bind at 1.
  match goal with |- context [refresh W opts None ?st] => set (s1 := st) end.
  assert (Htk : ticks s1 = S (S (ticks s))).
  { unfold s1. cbn [ticks with_setCookie with_shouldSendToClient with_sessionData tick].
    rewrite afterExpiryCheck_ticks; [reflexivity|exact Ht]. }
  rewrite (refresh_present W opts None s1 o eq_refl). cbv zeta.
  rewrite Htk. fold today. fold m. fold fresh. rewrite H0, Hc2.
  eexists. split; [reflexivity|]. split; reflexivity.
Qed.

(** X17. A failure of the rolling refresh is not caught: with rolling
    [true], a session decoded under the current secret and an [encrypt]
    that rejects, [initializeSession] throws; no directive has been stored,
    the session data already carry the new [expires]. *)
Theorem rolling_failure_throws (s : state) (p : string) (rest : list string)
    (o : obj) (s0 : Secret) :
  split "&id=" (sessionCookie s) = p :: rest →
  p ≠ "" →
  head (secrets opts) = Some s0 →
  Some (id s0) = decodeID W (rest !! 0%nat) →
  decryptWith W p (resolveSecret opts (decodeID W (rest !! 0%nat))) = Some (Some o) →
  rolling opts = RollBool true →
  (∀ x, encrypt W x (secret s0) = None) →
  ∃ s' x, initializeSession W opts s = Throws s' ∧
          setCookie s' = setCookie s ∧
          sessionData s' = Some (<["expires" := VDate x]> o).
Proof.
  intros Hsplit Hp H0 Hd Hdec Hroll Hfail.
  unfold initializeSession, bind at 1.
  rewrite (getSessionData_decrypted W opts s p (rest !! 0%nat) rest (Some o) s0);
    try done.
  cbv zeta. rewrite bool_decide_eq_true_2 by exact Hd.
  set (s1 := afterExpiryCheck W (with_sessionData (Some o) (with_sessionCookie p s))).
  assert (Hsd1 : sessionData s1 = Some o) by apply afterExpiryCheck_sessionData.
  unfold rollingRefresh. rewrite Hroll. cbn [rolling_truthy].
  unfold bind at 1, gets at 1. unfold bind at 1.
  rewrite (refresh_present W opts None s1 o Hsd1). cbv zeta.
  rewrite H0, Hfail.
  eexists _, _. split; [reflexivity|]. split; [|reflexivity].
  cbn [setCookie with_sessionData tick]. unfold s1.
  now rewrite afterExpiryCheck_setCookie.
Qed.

End Reissue.

(** ** The options and the start of a request *)



Section Options.

Context (W : World) {I : Type}.


(** X19. They part on [expires: 0]: the options of [initializeSession]
    keep a lifetime of 0 days, [normalizeConfig] falls back to 7. *)
Theorem expires_zero_differs (noop : I) (u : SessionOptions I) (b : bool) (s : state) :
  u_secret u ≠ None →
  u_expires u = Some (Num.of_Z 0) →
  ∃ n o s1 s2,
    normalizeConfig W noop u b s = Returns n s1 ∧
    options_of W u b s = Returns o s2 ∧
    n_expiresInDays n = Num.of_Z 7 ∧
    expiresInDays o = Num.of_Z 0.
Proof.
  intros Hsec He. unfold normalizeConfig, options_of.
  destruct (u_secret u) as [sec|]; [|congruence].
  rewrite He. eexists _, _, _, _. repeat split.
Qed.

(** X20. The check on [secret] lets an empty array through.  The ring is
    then empty: no cookie can be decoded -- any cookie with a payload portion
    is answered by the destroy directive -- and [set] and [update] always
    throw. *)
Theorem empty_array_accepted (u : SessionOptions I) (b : bool) (s : state) :
  u_secret u = Some (inr []) →
  ∃ opts s',
    options_of W u b s = Returns opts s' ∧
    secrets opts = [] ∧
    (∀ st p rest, split "&id=" (sessionCookie st) = p :: rest → p ≠ "" →
       getSessionData W opts st
       = Returns None (destroyed W opts (with_sessionCookie p st))) ∧
    (∀ st d, ∃ st', set W opts d st = Throws st') ∧
    (∀ st f, ∃ st', update W opts f st = Throws st').
Proof.
  intros Hsec. unfold options_of. rewrite Hsec.
  eexists _, _. split; [reflexivity|]. split; [reflexivity|].
  split; [|split].
  - intros st p rest Hsplit Hp.
    apply (getSessionData_failure W _ st p rest Hsplit Hp).
    unfold resolveSecret. reflexivity.
  - intros st d. rewrite set_eq. unfold sent. cbn [secrets head]. eauto.
  - intros st f. rewrite (update_eq W _ f st). cbv zeta. unfold sent.
    cbn [secrets head]. eauto.
Qed.

(** X21. A single secret becomes the ring [[{id: 1, secret}]], and the
    cookies written before tagging existed still work with it: a cookie
    without [&id=] that the secret decrypts becomes the session, with no
    rotation and no directive. *)
Theorem single_secret_untagged (u : SessionOptions I) (b : bool) (s : state)
    (k : string) :
  u_secret u = Some (inl k) →
  ∃ opts s',
    options_of W u b s = Returns opts s' ∧
    secrets opts = [mkSecret 1 k] ∧
    ∀ c d t, c ≠ "" → occurs "&id=" c = false → decrypt W c k = Some d →
      ∃ s2, getSessionData W opts (initial c t) = Returns d s2 ∧
            sessionData s2 = d ∧ setCookie s2 = None.
Proof.
  intros Hsec. unfold options_of. rewrite Hsec.
  eexists _, _. split; [reflexivity|]. split; [reflexivity|].
  intros c d t Hne Hfree Hdec.
  rewrite (getSessionData_decrypted W _ (initial c t) c None [] d (mkSecret 1 k));
    try done.
  - cbv zeta. cbn [decodeID]. rewrite bool_decide_eq_true_2 by reflexivity.
    eexists. split; [f_equal; apply afterExpiryCheck_sessionData|].
    split; [apply afterExpiryCheck_sessionData|].
    now rewrite afterExpiryCheck_setCookie.
  - cbn [sessionCookie initial]. now apply split_no_marker.
Qed.

(** X22. A request without the session cookie -- no cookie of that name,
    or an empty one -- starts with no session data, an empty [data] and no
    directive, whatever the rolling setting; the clock has been read once,
    for the options. *)
Theorem request_without_cookie (parse : string → gmap string string)
    (h : string + option string) (u : SessionOptions I) (b : bool) (t : nat) :
  u_secret u ≠ None →
  let cookies := parse (match h with inl str => str | inr header => or_string header "" end) in
  or_string (cookies !! default "kit.session" (u_key u)) "" = "" →
  ∃ opts s',
    initializeSession_from W parse h u b (initial "" t) = Returns (opts, cookies) s' ∧
    s' = initial "" (S t).
Proof.
  intros Hsec cookies Hnone. unfold initializeSession_from, options_of.
  destruct (u_secret u) as [sec|]; [|congruence].
  unfold bind at 1. unfold bind at 1, daysToMaxage, bind at 1, now at 1. cbn [ret].
  cbn [key]. fold cookies. rewrite Hnone.
  unfold bind at 1, modify at 1. unfold bind at 1, initializeSession, bind at 1.
  rewrite (getSessionData_empty W _ _ []); [|reflexivity].
  rewrite rollingRefresh_no_session; [|reflexivity].
  eexists _, _. split; reflexivity.
Qed.

End Options.

(** ** The further properties at work *)

Lemma set_then_data_witness :
  data (final (set Scenario.world (Scenario.opts (RollBool false))
                 (Some Scenario.bob) admin_request)) !! "user"
  = Some (VString "bob").
Proof.
  destruct (set_then_data Scenario.world (Scenario.opts (RollBool false))
              admin_request (Some Scenario.bob)
              ltac:(vm_compute; reflexivity) ltac:(vm_compute; reflexivity)) as [H _].
  rewrite H by discriminate. vm_compute. reflexivity.
Defined.

Lemma update_is_set_witness :
  update Scenario.world (Scenario.opts (RollBool false))
    (mkCallback (λ _, Some Scenario.bob) (λ o, o)) admin_request
  = set Scenario.world (Scenario.opts (RollBool false)) (Some Scenario.bob) admin_request.
Proof.
  apply (update_is_set Scenario.world (Scenario.opts (RollBool false)) admin_request
           (mkCallback (λ _, Some Scenario.bob) (λ o, o))).
  intros o. reflexivity.
Defined.

Lemma refresh_changes_only_expires_witness :
  ∃ o', sessionData (final (refresh Scenario.world (Scenario.opts (RollBool false))
                              None admin_request)) = Some o' ∧
        o' !! "role" = Some (VString "admin").
Proof.
  destruct (refresh_changes_only_expires Scenario.world (Scenario.opts (RollBool false))
              admin_request None Scenario.admin) as (o' & Hsd & Hk & _);
    [vm_compute; reflexivity|].
  exists o'. split; [exact Hsd|]. rewrite Hk by discriminate.
  vm_compute. reflexivity.
Defined.

Lemma failed_call_keeps_directive_witness :
  ∃ s', set jammed (Scenario.opts (RollBool false)) (Some Scenario.bob) admin_request
          = Throws s' ∧
        setCookie s' = None ∧
        ∃ o, sessionData s' = Some o ∧ o !! "user" = Some (VString "bob").
Proof.
  destruct (failed_call_keeps_directive jammed (Scenario.opts (RollBool false))
              admin_request (Some Scenario.bob) (mkCallback (λ d, d) (λ o, o)) None)
    as [H _].
  eexists. split; [vm_compute; reflexivity|].
  match goal with |- setCookie ?st = _ ∧ _ => destruct (H st) as (Hc & o & Ho & Hk) end;
    [vm_compute; reflexivity|].
  split; [rewrite Hc; vm_compute; reflexivity|].
  exists o. split; [exact Ho|]. rewrite Hk by discriminate. vm_compute. reflexivity.
Defined.

Lemma expired_request_stays_empty_witness :
  data (after_calls Scenario.world (Scenario.opts (RollBool false))
          [OpSet (Some Scenario.bob); OpRefresh None] stale_request) = ∅.
Proof.
  apply (expired_request_stays_empty Scenario.world (Scenario.opts (RollBool false))
           stale_request [OpSet (Some Scenario.bob); OpRefresh None]).
  vm_compute. reflexivity.
Defined.

Lemma unknown_id_reissued_witness :
  ∃ s', getSessionData Scenario.world (Scenario.opts (RollBool false))
          (initial "ADMIN.NEW&id=3" 0) = Returns (Some Scenario.admin) s' ∧
        set_cookie s' = Some "kit.session=ADMIN.NEW&id=2; Max-Age=3600".
Proof.
  destruct (unknown_id_reissued Scenario.world (Scenario.opts (RollBool false))
              (initial "ADMIN.NEW&id=3" 0) "ADMIN.NEW" ["3"] Scenario.admin
              (mkSecret 2 "new") "ADMIN.NEW") as (s' & Hget & _ & Hc);
    try (vm_compute; reflexivity); try discriminate.
  - intros x Hx. apply list_elem_of_In in Hx.
    destruct Hx as [<-|[<-|[]]]; vm_compute; discriminate.
  - exists s'. split; [exact Hget|]. unfold set_cookie. rewrite Hc.
    vm_compute. reflexivity.
Defined.

Lemma rotation_failure_destroys_witness :
  ∃ s', initializeSession jammed (Scenario.opts (RollBool false))
          (initial "ADMIN.OLD&id=1" 0) = Returns tt s' ∧
        sessionData s' = None ∧
        set_cookie s' = Some "kit.session=0; Expires=<past>".
Proof.
  destruct (rotation_failure_destroys jammed (Scenario.opts (RollBool false))
              (initial "ADMIN.OLD&id=1" 0) "ADMIN.OLD" ["1"] Scenario.admin
              (mkSecret 2 "new")) as (s' & n & _ & Hinit & Hsd & _ & Hc);
    try (vm_compute; reflexivity); try discriminate.
  exists s'. split; [exact Hinit|]. split; [exact Hsd|].
  unfold set_cookie. rewrite Hc. reflexivity.
Defined.

Lemma trailing_segments_ignored_witness :
  getSessionData Scenario.world (Scenario.opts (RollBool false))
    (initial "ADMIN.NEW&id=2" 0)
  = getSessionData Scenario.world (Scenario.opts (RollBool false))
      (initial "ADMIN.NEW&id=2&id=junk" 0).
Proof.
  apply (trailing_segments_ignored Scenario.world (Scenario.opts (RollBool false))
           "ADMIN.NEW&id=2" "ADMIN.NEW&id=2&id=junk" "ADMIN.NEW" ["2"] ["2"; "junk"] 0%nat);
    try reflexivity; discriminate.
Defined.

Lemma set_round_trip_witness :
  ∃ s2, getSessionData Scenario.world (Scenario.opts (RollBool false))
          (initial "ADMIN.NEW&id=2" 7) = Returns (Some Scenario.admin) s2 ∧
        sessionData s2 = Some Scenario.admin ∧ setCookie s2 = None.
Proof.
  destruct (set_round_trip Scenario.world (Scenario.opts (RollBool false))
              admin_request (Some Scenario.admin) (Some Scenario.admin)
              (final (set Scenario.world (Scenario.opts (RollBool false))
                        (Some Scenario.admin) admin_request))
              (mkSecret 2 "new") "ADMIN.NEW" 7%nat) as [_ H];
    try (vm_compute; reflexivity); try discriminate.
  exact H.
Defined.

Lemma rotation_round_trip_witness :
  ∃ s2, getSessionData Scenario.world (Scenario.opts (RollBool false))
          (initial "ADMIN.NEW&id=2" 7) = Returns (Some Scenario.admin) s2 ∧
        sessionData s2 = Some Scenario.admin ∧ setCookie s2 = None.
Proof.
  destruct (rotation_round_trip Scenario.world (Scenario.opts (RollBool false))
              (initial "ADMIN.OLD&id=1" 0) "ADMIN.OLD" ["1"] Scenario.admin
              (mkSecret 2 "new") "ADMIN.NEW" 7%nat) as [_ H];
    try (vm_compute; reflexivity); try discriminate.
  exact H.
Defined.

Lemma rolling_overrides_rotation_witness :
  ∃ s', initializeSession Scenario.world (Scenario.opts (RollBool true))
          (initial "ADMIN.OLD&id=1" 0) = Returns tt s' ∧
        set_cookie s' = Some "kit.session=SEALED&id=2; Max-Age=604800".
Proof.
  destruct (rolling_overrides_rotation Scenario.world (Scenario.opts (RollBool true))
              (initial "ADMIN.OLD&id=1" 0) "ADMIN.OLD" ["1"] Scenario.admin
              (mkSecret 2 "new") "ADMIN.NEW" "SEALED") as (s' & Hinit & _ & Hc);
    try (vm_compute; reflexivity); try discriminate.
  exists s'. split; [exact Hinit|]. unfold set_cookie. rewrite Hc.
  vm_compute. reflexivity.
Defined.

Lemma rolling_failure_throws_witness :
  ∃ s', initializeSession jammed (Scenario.opts (RollBool true))
          (initial "ADMIN.NEW&id=2" 0) = Throws s' ∧
        setCookie s' = None.
Proof.
  destruct (rolling_failure_throws jammed (Scenario.opts (RollBool true))
              (initial "ADMIN.NEW&id=2" 0) "ADMIN.NEW" ["2"] Scenario.admin
              (mkSecret 2 "new")) as (s' & x & Hinit & Hc & _);
    try (vm_compute; reflexivity); try discriminate.
  exists s'. split; [exact Hinit|exact Hc].
Defined.


Lemma expires_zero_differs_witness :
  ∃ n o s1 s2,
    normalizeConfig Scenario.world tt zero_days_options true (initial "" 0) = Returns n s1 ∧
    options_of Scenario.world zero_days_options true (initial "" 0) = Returns o s2 ∧
    n_expiresInDays n = Num.of_Z 7 ∧
    expiresInDays o = Num.of_Z 0.
Proof.
  apply (expires_zero_differs Scenario.world tt zero_days_options true (initial "" 0));
    [discriminate|reflexivity].
Defined.

Lemma empty_array_accepted_witness :
  ∃ opts s',
    options_of Scenario.world ringless_options true (initial "" 0) = Returns opts s' ∧
    secrets opts = [] ∧
    ∃ st', set Scenario.world opts (Some Scenario.bob) s' = Throws st'.
Proof.
  destruct (empty_array_accepted Scenario.world ringless_options true (initial "" 0))
    as (opts & s' & Hopts & Hring & _ & Hset & _); [reflexivity|].
  exists opts, s'. split; [exact Hopts|]. split; [exact Hring|]. apply Hset.
Defined.

Lemma single_secret_untagged_witness :
  ∃ opts s',
    options_of Scenario.world plain_options true (initial "" 0) = Returns opts s' ∧
    secrets opts = [mkSecret 1 "new"] ∧
    ∃ s2, getSessionData Scenario.world opts (initial "ADMIN.NEW" 1)
            = Returns (Some Scenario.admin) s2 ∧
          sessionData s2 = Some Scenario.admin ∧ setCookie s2 = None.
Proof.
  destruct (single_secret_untagged Scenario.world plain_options true (initial "" 0) "new")
    as (opts & s' & Hopts & Hring & Hdec); [reflexivity|].
  exists opts, s'. split; [exact Hopts|]. split; [exact Hring|].
  apply Hdec; [discriminate|reflexivity|reflexivity].
Defined.

Lemma request_without_cookie_witness :
  ∃ opts s',
    initializeSession_from Scenario.world (λ _, ∅) (inr None) plain_options true
      (initial "" 0) = Returns (opts, ∅) s' ∧
    s' = initial "" 1.
Proof.
  apply (request_without_cookie Scenario.world (λ _, ∅) (inr None) plain_options true
           0%nat); [discriminate|reflexivity].
Defined.

(** ** What decoding lets in *)

Section Admission.

Context (W : World) (opts : options).

Lemma reEncryptSession_sessionData (s : state) :
  sessionData (final (reEncryptSession W opts s)) = sessionData s.
Proof.
  unfold reEncryptSession, bind at 1, gets at 1.
  destruct (sessionData s) as [o|] eqn:Hsd; [|exact Hsd].
  unfold bind at 1. rewrite lifetimeFor_eq.
  unfold bind at 1, modify at 1. unfold bind at 1, modify at 1.
  unfold bind at 1, makeCookie, bind at 1, encode, bind at 1, gets at 1.
  unfold bind at 1, secret0.
  destruct (head (secrets opts)) as [s0|]; [|reflexivity].
  cbn [ret sessionData with_shouldSendToClient with_sessionData].
  destruct (encrypt W (Some o) (secret s0)); reflexivity.
Qed.

(** X23. The tag selects a key and nothing more: whatever the cookie,
    session data are present after decoding only if the payload portion of
    the cookie decrypts to exactly these data under a secret of the ring. *)
Theorem only_decrypted_data_admitted (c : string) (t : nat) (o : obj) :
  sessionData (final (getSessionData W opts (initial c t))) = Some o →
  ∃ p rest sec,
    split "&id=" c = p :: rest ∧
    sec ∈ secrets opts ∧
    decrypt W p (secret sec) = Some (Some o).
Proof.
  intros H. destruct (split_first c) as (p & rest & Hsplit).
  exists p, rest.
  destruct (String.eqb_spec p "") as [->|Hp].
  { rewrite (getSessionData_empty W opts (initial c t) rest Hsplit) in H. discriminate. }
  destruct (decryptWith W p (resolveSecret opts (decodeID W (rest !! 0%nat))))
    as [d|] eqn:Hdec.
  2:{ rewrite (getSessionData_failure W opts (initial c t) p rest Hsplit Hp Hdec) in H.
      discriminate. }
  unfold decryptWith in Hdec.
  destruct (resolveSecret opts (decodeID W (rest !! 0%nat))) as [sec|] eqn:Hres;
    [|discriminate].
  assert (Hin : sec ∈ secrets opts).
  { apply resolveSecret_cases in Hres as [[Hin _]|[_ Hh]]; [exact Hin|].
    destruct (secrets opts) as [|x l]; [discriminate|].
    injection Hh as ->. apply list_elem_of_here. }
  exists sec. split; [exact Hsplit|]. split; [exact Hin|].
  destruct (secrets opts) as [|s0 l] eqn:Hring; [now apply elem_of_nil in Hin|].
  rewrite (getSessionData_decrypted W opts (initial c t) p (rest !! 0%nat) rest d s0)
    in H; try done.
  - cbv zeta in H.
    set (s1 := afterExpiryCheck W (with_sessionData d (with_sessionCookie p (initial c t))))
      in H.
    assert (Hsd1 : sessionData s1 = d) by apply afterExpiryCheck_sessionData.
    destruct (bool_decide _).
    + cbn [final] in H. congruence.
    + unfold try_catch, bind at 1 in H.
      pose proof (reEncryptSession_sessionData s1) as Hre.
      destruct (reEncryptSession W opts s1) as [[] s2|s2]; cbn [final] in Hre.
      * cbn [gets final] in H. congruence.
      * cbn in H. discriminate.
  - now rewrite Hring.
  - unfold decryptWith. now rewrite Hres.
Qed.

(** X24. With rolling [true] an expired session is renewed: a cookie that
    decodes under the current secret into data whose [expires] has passed
    ends [initializeSession] with a directive that carries these data with a
    fresh [expires] and the max-age of the configured number of days, while
    the [data] getter of this request stays empty. *)
Theorem expired_session_renewed_by_rolling (s : state) (p : string)
    (rest : list string) (o : obj) (s0 : Secret) (c : string) :
  split "&id=" (sessionCookie s) = p :: rest →
  p ≠ "" →
  head (secrets opts) = Some s0 →
  Some (id s0) = decodeID W (rest !! 0%nat) →
  decryptWith W p (resolveSecret opts (decodeID W (rest !! 0%nat))) = Some (Some o) →
  truthy (get_expires o) = true →
  Num.lt (getTime (new_Date W (get_expires o))) (Num.of_Z (clock W (ticks s))) = true →
  rolling opts = RollBool true →
  let today := clock W (S (ticks s)) in
  let m := Num.sub (Num.div (getTime (addDays W today (expiresInDays opts))) (Num.of_Z 1000))
                   (Num.div (Num.of_Z today) (Num.of_Z 1000)) in
  let fresh := VDate (Date_of_num (Num.add (Num.of_Z (clock W (S (S (ticks s)))))
                                           (Num.mul m (Num.of_Z 1000)))) in
  encrypt W (Some (<["expires" := fresh]> o)) (secret s0) = Some c →
  ∃ s', initializeSession W opts s = Returns tt s' ∧
        sessionData s' = Some (<["expires" := fresh]> o) ∧
        setCookie s' =
          Some (liveDirective W opts (c +:+ "&id=" +:+ String_of_id (id s0)) m) ∧
        data s' = ∅.
Proof.
  intros Hsplit Hp H0 Hd Hdec Ht Hlt Hroll today m fresh Hc.
  unfold initializeSession, bind at 1.
  rewrite (getSessionData_decrypted W opts s p (rest !! 0%nat) rest (Some o) s0);
    try done.
  cbv zeta. rewrite bool_decide_eq_true_2 by exact Hd.
  set (s1 := afterExpiryCheck W (with_sessionData (Some o) (with_sessionCookie p s))).
  assert (Hs1 : s1 = with_invalidDate
                       (tick (with_sessionData (Some o) (with_sessionCookie p s)))).
  { unfold s1, afterExpiryCheck. cbn [sessionData with_sessionData opt_expires].
    rewrite Ht. cbn [ticks with_sessionData with_sessionCookie]. now rewrite Hlt. }
  unfold rollingRefresh. rewrite Hroll. cbn [rolling_truthy].
  unfold bind at 1, gets at 1. unfold bind at 1.
  rewrite (refresh_present W opts None s1 o); [|now rewrite Hs1].
  cbv zeta. rewrite Hs1.
  cbn [ticks with_invalidDate tick with_sessionData with_sessionCookie].
  fold today. fold m. fold fresh. rewrite H0, Hc.
  eexists. split; [reflexivity|]. split; [reflexivity|]. split; [reflexivity|].
  apply data_flagged. reflexivity.
Qed.

End Admission.

Lemma only_decrypted_data_admitted_witness :
  ∃ p rest sec,
    split "&id=" "ADMIN.OLD&id=1" = p :: rest ∧
    sec ∈ Scenario.ring ∧
    decrypt Scenario.world p (secret sec) = Some (Some Scenario.admin).
Proof.
  apply (only_decrypted_data_admitted Scenario.world (Scenario.opts (RollBool false))
           "ADMIN.OLD&id=1" 0%nat Scenario.admin).
  vm_compute. reflexivity.
Defined.

Lemma expired_session_renewed_by_rolling_witness :
  ∃ s', initializeSession Scenario.world (Scenario.opts (RollBool true))
          (initial "STALE.NEW&id=2" 0) = Returns tt s' ∧
        set_cookie s' = Some "kit.session=SEALED&id=2; Max-Age=604800" ∧
        data s' = ∅.
Proof.
  destruct (expired_session_renewed_by_rolling Scenario.world
              (Scenario.opts (RollBool true)) (initial "STALE.NEW&id=2" 0)
              "STALE.NEW" ["2"] Scenario.stale (mkSecret 2 "new") "SEALED")
    as (s' & Hinit & _ & Hc & Hdata);
    try (vm_compute; reflexivity); try discriminate.
  exists s'. split; [exact Hinit|]. split; [|exact Hdata].
  unfold set_cookie. rewrite Hc. vm_compute. reflexivity.
Defined.

(** ** The rolling threshold is a double *)

(** With rolling at 7 percent of 604800 seconds the threshold is not 42336
    but the double after it: a session with a rounded 42336 seconds left is
    refreshed. *)
Lemma rolling_threshold_is_a_double :
  let W := Scenario.world in
  let opts := Scenario.opts (RollNumber (Num.of_Z 7)) in
  let o : obj := <["expires" := VDate (Some (Scenario.t0 + 42336000))]> ∅ in
  let s := with_sessionData (Some o) (initial "" 0) in
  Num.round (remaining W (get_expires o) (clock W (ticks s))) = Num.of_Z 42336 ∧
  Num.lt (Num.of_Z 42336) (threshold opts (Num.of_Z 7)) = true ∧
  set_cookie (final (rollingRefresh W opts s))
    = Some "kit.session=SEALED&id=2; Max-Age=604800".
Proof. vm_compute. repeat split; reflexivity. Qed.
